(** * Verification of places_analysis/only_review.ipynb

    Shallow embedding of the two analysis cells of the notebook
    (review extraction, investment score report) over a model of the
    values produced by Python's [json.load]: strings are sequences of
    Unicode code points, integers are unbounded and floats are IEEE 754
    binary64 numbers with round-to-nearest-even arithmetic, as in CPython.
    Models of the fetcher and persister described by the specification
    come last. *)

From Stdlib Require Import List String Ascii Bool ZArith QArith Qpower Qround Qabs Lqa Lia.
Import ListNotations.
Open Scope list_scope.
Set Warnings "-register-all".

(** ** Python [str]: a sequence of Unicode code points. *)
Definition pystr : Type := list Z.

(** An ASCII literal of the source as a [str]. *)
Definition lit (s : string) : pystr :=
  map (fun c => Z.of_nat (nat_of_ascii c)) (list_ascii_of_string s).
Arguments lit : simpl never.

Fixpoint pystr_eqb (a b : pystr) : bool :=
  match a, b with
  | [], [] => true
  | x :: a', y :: b' => Z.eqb x y && pystr_eqb a' b'
  | _, _ => false
  end.

(** [str.isspace()] on one code point: the characters of Unicode
    category Zs or bidirectional class WS, B or S. *)
Definition is_space (c : Z) : bool :=
  ((9 <=? c) && (c <=? 13))%Z || ((28 <=? c) && (c <=? 32))%Z
  || (c =? 133)%Z || (c =? 160)%Z || (c =? 5760)%Z
  || ((8192 <=? c) && (c <=? 8202))%Z
  || (c =? 8232)%Z || (c =? 8233)%Z || (c =? 8239)%Z || (c =? 8287)%Z
  || (c =? 12288)%Z.

Fixpoint lstrip (l : pystr) : pystr :=
  match l with
  | [] => []
  | c :: l' => if is_space c then lstrip l' else l
  end.

(** [str.strip()]: whitespace removed at both ends. *)
Definition strip (s : pystr) : pystr := rev (lstrip (rev (lstrip s))).

(** ** Python [float]: IEEE 754 binary64.
    A finite double other than [-0.0] is kept as its exact (reduced)
    rational value. *)
Inductive f64 : Type :=
| Fin (q : Q)
| NegZero
| Inf (neg : bool)
| NaN.

(** Rounding half to even to an integer. *)
Definition round_half_even (x : Q) : Z :=
  let f := Qfloor x in
  match Qcompare (x - inject_Z f) (1 # 2) with
  | Lt => f
  | Gt => (f + 1)%Z
  | Eq => if Z.even f then f else (f + 1)%Z
  end.

(** [floor(log2 a)] for [a > 0]. *)
Definition qlog2 (a : Q) : Z :=
  let k := (Z.log2 (Qnum a) - Z.log2 (Zpos (Qden a)))%Z in
  if Qle_bool (2 ^ k) a then k else (k - 1)%Z.

(** A positive value rounded to 53 significant bits, or to a multiple of
    the subnormal spacing [2^-1074]. *)
Definition round_val (a : Q) : Q :=
  let e := Z.max (qlog2 a - 52) (-1074) in
  inject_Z (round_half_even (a / 2 ^ e)) * 2 ^ e.

(** [None] when the rounded value overflows (reaches [2^1024]). *)
Definition round_pos (a : Q) : option Q :=
  let v := round_val a in
  if Qle_bool (2 ^ 1024) v then None else Some (Qred v).

(** The double nearest to [x] (ties to even); [zneg] is the sign of an
    exact zero result. *)
Definition fl (zneg : bool) (x : Q) : f64 :=
  match Qcompare x 0 with
  | Eq => if zneg then NegZero else Fin 0
  | Gt => match round_pos x with
          | Some v => if Qeq_bool v 0 then Fin 0 else Fin v
          | None => Inf false
          end
  | Lt => match round_pos (- x) with
          | Some v => if Qeq_bool v 0 then NegZero else Fin (- v)
          | None => Inf true
          end
  end.

(** The value of a float literal of the source. *)
Definition float_lit (q : Q) : f64 := fl false q.

Definition fsign (f : f64) : bool :=
  match f with
  | Fin q => negb (Qle_bool 0 q)
  | NegZero => true
  | Inf s => s
  | NaN => false
  end.

Definition fzero (f : f64) : bool :=
  match f with
  | Fin q => Qeq_bool q 0
  | NegZero => true
  | _ => false
  end.

Definition is_negzero (f : f64) : bool :=
  match f with NegZero => true | _ => false end.

(** The value of a finite double. *)
Definition fq (f : f64) : Q :=
  match f with Fin q => q | _ => 0 end.

Definition fval (f : f64) : option Q :=
  match f with
  | Fin q => Some q
  | NegZero => Some 0
  | _ => None
  end.

Definition fadd (a b : f64) : f64 :=
  match a, b with
  | NaN, _ | _, NaN => NaN
  | Inf s, Inf t => if Bool.eqb s t then Inf s else NaN
  | Inf s, _ | _, Inf s => Inf s
  | _, _ => fl (is_negzero a && is_negzero b) (fq a + fq b)
  end.

Definition fmul (a b : f64) : f64 :=
  match a, b with
  | NaN, _ | _, NaN => NaN
  | Inf s, Inf t => Inf (xorb s t)
  | Inf s, f | f, Inf s => if fzero f then NaN else Inf (xorb s (fsign f))
  | _, _ => fl (xorb (fsign a) (fsign b)) (fq a * fq b)
  end.

Definition fdiv (a b : f64) : f64 :=
  match a, b with
  | NaN, _ | _, NaN => NaN
  | Inf _, Inf _ => NaN
  | Inf s, f => Inf (xorb s (fsign f))
  | f, Inf s => if xorb (fsign f) s then NegZero else Fin 0
  | _, _ =>
      if fzero b then (if fzero a then NaN else Inf (xorb (fsign a) (fsign b)))
      else fl (xorb (fsign a) (fsign b)) (fq a / fq b)
  end.

(** Unit roundoff [2^-53], half the subnormal spacing [2^-1075], and a
    magnitude below which no rounding overflows. *)
Definition u53 : Q := 1 # 9007199254740992.
Definition eta : Q := 2 ^ (-1075).
Definition big : Q := 2 ^ 1023.

(** ** Python exceptions and the error monad threading them. *)
Inductive py_exc : Type :=
| AttributeError
| TypeError
| OverflowError
| ZeroDivisionError.

Inductive py (A : Type) : Type :=
| Ok (a : A)
| Raise (e : py_exc).
Arguments Ok {A} a.
Arguments Raise {A} e.

Definition py_bind {A B} (m : py A) (k : A -> py B) : py B :=
  match m with
  | Ok a => k a
  | Raise e => Raise e
  end.

Notation "'let*' x ':=' m 'in' k" := (py_bind m (fun x => k))
  (at level 200, x name, m at level 100, k at level 200).

(** ** Python numbers: unbounded [int] and [float]. *)
Inductive pynum : Type :=
| PInt (z : Z)
| PFloat (f : f64).

(** [float(z)]: correctly rounded, [OverflowError] when too large. *)
Definition int_to_float (z : Z) : py f64 :=
  match fl false (inject_Z z) with
  | Inf _ => Raise OverflowError
  | f => Ok f
  end.

Definition to_float (x : pynum) : py f64 :=
  match x with
  | PInt z => int_to_float z
  | PFloat f => Ok f
  end.

(** [x + y]: exact on two ints; otherwise both operands are converted to
    float and added. *)
Definition py_add (x y : pynum) : py pynum :=
  match x, y with
  | PInt a, PInt b => Ok (PInt (a + b))
  | _, _ =>
      let* a := to_float x in
      let* b := to_float y in
      Ok (PFloat (fadd a b))
  end.

(** [x * y]. *)
Definition py_mul (x y : pynum) : py pynum :=
  match x, y with
  | PInt a, PInt b => Ok (PInt (a * b))
  | _, _ =>
      let* a := to_float x in
      let* b := to_float y in
      Ok (PFloat (fmul a b))
  end.

(** [a / b] on two ints: the correctly rounded quotient. *)
Definition int_truediv (a b : Z) : py f64 :=
  if (b =? 0)%Z then Raise ZeroDivisionError else
  match fl (xorb (a <? 0)%Z (b <? 0)%Z) (inject_Z a / inject_Z b) with
  | Inf _ => Raise OverflowError
  | f => Ok f
  end.

(** [x / y]. *)
Definition py_truediv (x y : pynum) : py pynum :=
  match x, y with
  | PInt a, PInt b => let* f := int_truediv a b in Ok (PFloat f)
  | _, _ =>
      let* a := to_float x in
      let* b := to_float y in
      if fzero b then Raise ZeroDivisionError else Ok (PFloat (fdiv a b))
  end.

(** [round(x, 2)]: an int is returned unchanged; a finite float is
    rounded half to even at the second decimal of its exact value, and the
    decimal result converted back to the nearest double; a zero result
    keeps the sign of [x]; infinities and NaN are returned unchanged. *)
Definition py_round2 (x : pynum) : py pynum :=
  match x with
  | PInt z => Ok (PInt z)
  | PFloat (Fin q) =>
      let k := round_half_even (q * 100) in
      if (k =? 0)%Z then Ok (PFloat (if Qle_bool 0 q then Fin 0 else NegZero))
      else match fl false (inject_Z k / 100) with
           | Inf _ => Raise OverflowError
           | g => Ok (PFloat g)
           end
  | PFloat f => Ok (PFloat f)
  end.

(** ** JSON values as [json.load] returns them. *)
Inductive json : Type :=
| JNull
| JBool (b : bool)
| JInt (z : Z)
| JFloat (f : f64)
| JStr (s : pystr)
| JArr (l : list json)
| JObj (kv : list (pystr * json)).

(** Key lookup in a decoded JSON object (keys are unique there). *)
Fixpoint assoc (k : pystr) (kv : list (pystr * json)) : option json :=
  match kv with
  | [] => None
  | (k', v) :: kv' => if pystr_eqb k k' then Some v else assoc k kv'
  end.

(** [d.get(k, default)]: only dicts have [.get]. *)
Definition dict_get (d : json) (k : pystr) (default : json) : py json :=
  match d with
  | JObj kv =>
      match assoc k kv with
      | Some v => Ok v
      | None => Ok default
      end
  | _ => Raise AttributeError
  end.

(** Python truthiness of a JSON value ([nan] is truthy, [-0.0] is not). *)
Definition truthy (v : json) : bool :=
  match v with
  | JNull => false
  | JBool b => b
  | JInt z => negb (Z.eqb z 0)
  | JFloat f => negb (fzero f)
  | JStr s => match s with [] => false | _ => true end
  | JArr l => match l with [] => false | _ => true end
  | JObj kv => match kv with [] => false | _ => true end
  end.

Definition is_none (v : json) : bool :=
  match v with JNull => true | _ => false end.

(** [for x in v]: lists yield their items, strings their characters,
    dicts their keys; other values raise [TypeError]. *)
Definition py_iter (v : json) : py (list json) :=
  match v with
  | JArr l => Ok l
  | JStr s => Ok (map (fun c => JStr [c]) s)
  | JObj kv => Ok (map (fun kv => JStr (fst kv)) kv)
  | _ => Raise TypeError
  end.

(** [len(v)]. *)
Definition py_len (v : json) : py nat :=
  match v with
  | JArr l => Ok (List.length l)
  | JStr s => Ok (List.length s)
  | JObj kv => Ok (List.length kv)
  | _ => Raise TypeError
  end.

(** [v.strip()]: only strings have [.strip]. *)
Definition py_strip (v : json) : py json :=
  match v with
  | JStr s => Ok (JStr (strip s))
  | _ => Raise AttributeError
  end.

(** A JSON value used as a number operand: [bool] is an [int]. *)
Definition py_num (v : json) : py pynum :=
  match v with
  | JInt z => Ok (PInt z)
  | JBool b => Ok (PInt (if b then 1 else 0))
  | JFloat f => Ok (PFloat f)
  | _ => Raise TypeError
  end.

(** [acc += v] for a JSON value [v]. *)
Definition py_add_value (acc : pynum) (v : json) : py pynum :=
  let* x := py_num v in
  py_add acc x.

Definition json_of_num (x : pynum) : json :=
  match x with
  | PInt z => JInt z
  | PFloat f => JFloat f
  end.

(** ** Cell dce54e1d: review extraction. *)
Module Extract.

(** Body of the inner loop over [reviews_raw] for one review. *)
Definition extract_review (review : json) : py (option json) :=
  let* author := dict_get review (lit "author_name") JNull in
  let* rating := dict_get review (lit "rating") JNull in
  let* text := dict_get review (lit "text") JNull in
  if truthy author && negb (is_none rating) && truthy text then
    let* t := py_strip text in
    Ok (Some (JObj [(lit "author_name", author); (lit "rating", rating); (lit "text", t)]))
  else Ok None.

Fixpoint collect_reviews (rs : list json) : py (list json) :=
  match rs with
  | [] => Ok []
  | r :: rs' =>
      let* o := extract_review r in
      let* rest := collect_reviews rs' in
      Ok (match o with Some x => x :: rest | None => rest end)
  end.

(** Body of the outer loop over [data.get("places", [])] for one place. *)
Definition extract_place (place : json) : py (option json) :=
  let* name := dict_get place (lit "name") JNull in
  let* reviews_raw := dict_get place (lit "reviews") (JArr []) in
  let* items := py_iter reviews_raw in
  let* reviews := collect_reviews items in
  if truthy name && truthy (JArr reviews) then
    Ok (Some (JObj [(lit "name", name); (lit "reviews", JArr reviews)]))
  else Ok None.

Fixpoint collect_places (ps : list json) : py (list json) :=
  match ps with
  | [] => Ok []
  | p :: ps' =>
      let* o := extract_place p in
      let* rest := collect_places ps' in
      Ok (match o with Some x => x :: rest | None => rest end)
  end.

(** The [output] list the cell dumps to reports/business_reviews.json. *)
Definition extract_cell (data : json) : py (list json) :=
  let* places_v := dict_get data (lit "places") (JArr []) in
  let* places := py_iter places_v in
  collect_places places.

(** Claim-side description of the extraction, in the claim's words:
    keep a review only when its author is truthy, its rating is not None
    and its text is truthy, strip the kept text, and emit a place only with
    a truthy name and at least one kept review. *)
Definition field (r : json) (k : pystr) : json :=
  match r with
  | JObj kv => match assoc k kv with Some v => v | None => JNull end
  | _ => JNull
  end.

Definition review_complete (r : json) : bool :=
  truthy (field r (lit "author_name")) && negb (is_none (field r (lit "rating")))
  && truthy (field r (lit "text")).

Definition stripped_text (v : json) : json :=
  match v with JStr s => JStr (strip s) | _ => v end.

Definition kept_review (r : json) : json :=
  JObj [(lit "author_name", field r (lit "author_name"));
        (lit "rating", field r (lit "rating"));
        (lit "text", stripped_text (field r (lit "text")))].

Definition kept_reviews (rs : list json) : list json :=
  map kept_review (filter review_complete rs).

Definition list_field (r : json) (k : pystr) : list json :=
  match field r k with JArr l => l | _ => [] end.

Definition spec_place (place : json) : list json :=
  let ks := kept_reviews (list_field place (lit "reviews")) in
  if truthy (field place (lit "name")) && negb (match ks with [] => true | _ => false end)
  then [JObj [(lit "name", field place (lit "name")); (lit "reviews", JArr ks)]]
  else [].

Definition spec_extract (data : json) : list json :=
  flat_map spec_place (list_field data (lit "places")).

End Extract.

(** ** Cell 48b79dae: investment scores. *)
Module Invest.

Section Score.

(** [TextBlob(text).sentiment.polarity] on a string: a third-party
    function returning a float, kept abstract. *)
Variable polarity : pystr -> f64.

(** [analyze_review_sentiment]: [TextBlob] rejects non-strings. *)
Definition analyze_review_sentiment (text : json) : py pynum :=
  match text with
  | JStr s => Ok (PFloat (polarity s))
  | _ => Raise TypeError
  end.

(** The [for review in reviews] loop of [compute_investment_score]. *)
Fixpoint score_loop (rs : list json) (total_rating total_sentiment : pynum)
  : py (pynum * pynum) :=
  match rs with
  | [] => Ok (total_rating, total_sentiment)
  | review :: rs' =>
      let* rating := dict_get review (lit "rating") (JInt 0) in
      let* text := dict_get review (lit "text") (JStr []) in
      let* sentiment := analyze_review_sentiment text in
      let* tr := py_add_value total_rating rating in
      let* ts := py_add total_sentiment sentiment in
      score_loop rs' tr ts
  end.

Definition compute_investment_score (business : json) : py pynum :=
  let* reviews := dict_get business (lit "reviews") (JArr []) in
  if negb (truthy reviews) then Ok (PInt 0) else
  let* items := py_iter reviews in
  let* totals := score_loop items (PInt 0) (PInt 0) in
  let* n := py_len reviews in
  let* avg_rating := py_truediv (fst totals) (PInt (Z.of_nat n)) in
  let* avg_sentiment := py_truediv (snd totals) (PInt (Z.of_nat n)) in
  let count_reviews := PInt (Z.of_nat n) in
  let* a := py_mul avg_rating (PFloat (float_lit (1 # 2))) in
  let* b := py_mul avg_sentiment (PInt 2) in
  let* ab := py_add a b in
  let* c := py_mul count_reviews (PFloat (float_lit (5 # 100))) in
  let* investment_score := py_add ab c in
  py_round2 investment_score.

(** Body of the report loop for one place. *)
Definition report_place (place : json) : py json :=
  let* name := dict_get place (lit "name") JNull in
  let* reviews := dict_get place (lit "reviews") (JArr []) in
  let* score := compute_investment_score place in
  let* n := py_len reviews in
  let* rating := dict_get place (lit "rating") JNull in
  Ok (JObj [(lit "name", name); (lit "investment_score", json_of_num score);
            (lit "reviews_count", JInt (Z.of_nat n));
            (lit "rating", rating)]).

Fixpoint report_places (ps : list json) : py (list json) :=
  match ps with
  | [] => Ok []
  | p :: ps' =>
      let* x := report_place p in
      let* rest := report_places ps' in
      Ok (x :: rest)
  end.

(** The [results] list the cell dumps to reports/investment_scores.json. *)
Definition report_cell (data : json) : py (list json) :=
  let* places_v := dict_get data (lit "places") (JArr []) in
  let* places := py_iter places_v in
  report_places places.

End Score.

(** Claim-side description of the score: the linear formula with the
    fixed weights, evaluated with Python's arithmetic over the per-review
    ratings and sentiments, each summed from [0] left to right. *)
Fixpoint py_sum_from (acc : pynum) (l : list pynum) : py pynum :=
  match l with
  | [] => Ok acc
  | x :: l' => let* acc' := py_add acc x in py_sum_from acc' l'
  end.

Definition investment_formula (ratings sentiments : list pynum) (n : Z) : py pynum :=
  let* total_rating := py_sum_from (PInt 0) ratings in
  let* total_sentiment := py_sum_from (PInt 0) sentiments in
  let* avg_rating := py_truediv total_rating (PInt n) in
  let* avg_sentiment := py_truediv total_sentiment (PInt n) in
  let* a := py_mul avg_rating (PFloat (float_lit (1 # 2))) in
  let* b := py_mul avg_sentiment (PInt 2) in
  let* ab := py_add a b in
  let* c := py_mul (PInt n) (PFloat (float_lit (5 # 100))) in
  let* s := py_add ab c in
  py_round2 s.

(** A number as a JSON value: an int or a float. *)
Definition is_numeric (v : json) : bool :=
  match v with JInt _ | JFloat _ => true | _ => false end.

(** A review's rating as a number, 0 when the key is missing. *)
Definition rating_or_0 (r : json) : pynum :=
  match r with
  | JObj kv =>
      match assoc (lit "rating") kv with
      | Some (JInt z) => PInt z
      | Some (JFloat f) => PFloat f
      | _ => PInt 0
      end
  | _ => PInt 0
  end.

(** A review's text, the empty string when the key is missing. *)
Definition text_or_empty (r : json) : pystr :=
  match r with
  | JObj kv => match assoc (lit "text") kv with Some (JStr s) => s | _ => [] end
  | _ => []
  end.

(** A well-formed review: a dict with a numeric rating and a string text. *)
Definition review_well_formed (r : json) : Prop :=
  exists kv x s, r = JObj kv /\ assoc (lit "rating") kv = Some x
                 /\ is_numeric x = true
                 /\ assoc (lit "text") kv = Some (JStr s).

(** A review whose rating and text are each either missing or well typed. *)
Definition review_ok (r : json) : Prop :=
  exists kv, r = JObj kv
    /\ (assoc (lit "rating") kv = None
        \/ exists x, assoc (lit "rating") kv = Some x /\ is_numeric x = true)
    /\ (assoc (lit "text") kv = None \/ exists s, assoc (lit "text") kv = Some (JStr s)).

(** The value of a finite number. *)
Definition num_val (x : pynum) : option Q :=
  match x with
  | PInt z => Some (inject_Z z)
  | PFloat f => fval f
  end.

End Invest.
(** ** Error kinds of the specification (section 7). *)
Inductive error_kind : Type :=
| InvalidInput
| AuthError
| QuotaExceeded
| NetworkError
| MalformedResponse
| FileIOError.

(** ** Fetcher (places_api.py, not part of the sources). *)
Module Fetcher.

(** Modelled from the spec: the parameters of [search_nearby_places]
    (center coordinate, keyword, radius in meters). *)
Record search_params : Type := {
  latitude : Q;
  longitude : Q;
  keyword : string;
  radius : Z
}.

(** Modelled from the spec: page cap (3 pages of 20, 60 results). *)
Definition MAX_PAGES : nat := 3.

(** Modelled from the spec: radius bound of [validate_user_input]. *)
Definition valid_radius (r : Z) : bool := (1 <=? r)%Z && (r <=? 50000)%Z.

(** Modelled from the spec: [InvalidInput] for a bad coordinate, radius
    or keyword. *)
Definition validate_params (p : search_params) : option error_kind :=
  if Qle_bool (-90) (latitude p) && Qle_bool (latitude p) 90
     && Qle_bool (-180) (longitude p) && Qle_bool (longitude p) 180
     && negb (String.eqb (keyword p) EmptyString)
     && valid_radius (radius p)
  then None
  else Some InvalidInput.

(** Errors the provider can report for one page. *)
Inductive provider_error : Type :=
| PAuth
| PQuota
| PNetwork
| PMalformed.

Definition lift_error (e : provider_error) : error_kind :=
  match e with
  | PAuth => AuthError
  | PQuota => QuotaExceeded
  | PNetwork => NetworkError
  | PMalformed => MalformedResponse
  end.

(** Observable effects of a run: page requests and the token delay. *)
Inductive event : Type :=
| Request (token : option string)
| Sleep.

Section Paginate.

(** Modelled from the spec: the injectable page interface
    [fetchPage(params) -> (records, nextToken)]. *)
Variable fetch_page : search_params -> option string ->
  sum provider_error (list json * option string).
Variable p : search_params.

(** Modelled from the spec: request pages until the cap is reached or no
    next-page token is returned, sleeping before each reuse of a token. *)
Fixpoint paginate (pages_left : nat) (token : option string) (acc : list json)
  : sum error_kind (list json) * list event :=
  match pages_left with
  | O => (inr acc, [])
  | S n =>
      match fetch_page p token with
      | inl e => (inl (lift_error e), [Request token])
      | inr (recs, next) =>
          match next, n with
          | Some t, S _ =>
              let '(r, tr) := paginate n (Some t) (acc ++ recs) in
              (r, Request token :: Sleep :: tr)
          | _, _ => (inr (acc ++ recs), [Request token])
          end
      end
  end.

End Paginate.

(** Modelled from the spec: [search_nearby_places]. *)
Definition search_nearby_places fetch_page (p : search_params)
  : sum error_kind (list json) * list event :=
  match validate_params p with
  | Some e => (inl e, [])
  | None => paginate fetch_page p MAX_PAGES None []
  end.

(** Claim-side description of a pagination run with [n] pages left from
    token [tok]: one request per page; a further request (after the token
    delay) only when the response carried a token and the cap is not
    reached; a response without token, or an error, ends the run. *)
Inductive chained
  (fetch_page : search_params -> option string ->
     sum provider_error (list json * option string))
  (p : search_params)
  : nat -> option string -> list event -> Prop :=
| chain_no_token : forall n tok recs,
    fetch_page p tok = inr (recs, None) ->
    chained fetch_page p (S n) tok [Request tok]
| chain_error : forall n tok e,
    fetch_page p tok = inl e ->
    chained fetch_page p (S n) tok [Request tok]
| chain_cap : forall tok recs t,
    fetch_page p tok = inr (recs, Some t) ->
    chained fetch_page p 1 tok [Request tok]
| chain_next : forall n tok recs t tr,
    fetch_page p tok = inr (recs, Some t) ->
    chained fetch_page p (S n) (Some t) tr ->
    chained fetch_page p (S (S n)) tok (Request tok :: Sleep :: tr).

End Fetcher.

(** ** Persister (utils.py, not part of the sources). *)
Module Persister.

Definition fs : Type := string -> option json.

Definition fs_write (f : fs) (path : string) (doc : json) : fs :=
  fun q => if String.eqb q path then Some doc else f q.

(** Modelled from the spec: the result envelope
    [{"metadata": {...}, "places": [...]}]. *)
Definition envelope (timestamp : pystr) (records : list json) : json :=
  JObj [(lit "metadata",
          JObj [(lit "search_timestamp", JStr timestamp);
                (lit "total_count", JInt (Z.of_nat (List.length records)));
                (lit "schema_version", JStr (lit "1"))]);
        (lit "places", JArr records)].

(** Modelled from the spec: [save(records, path)] with an injected clock. *)
Definition save (timestamp : pystr) (records : list json) (path : string)
  (f : fs) : fs :=
  fs_write f path (envelope timestamp records).

(** Modelled from the spec: [load(path)], a missing file is a
    [FileIOError], a document of the wrong shape (or whose count
    disagrees with its places) a [MalformedResponse]. *)
Definition load (f : fs) (path : string) : sum error_kind (list json) :=
  match f path with
  | None => inl FileIOError
  | Some (JObj kv) =>
      match assoc (lit "metadata") kv, assoc (lit "places") kv with
      | Some (JObj meta), Some (JArr records) =>
          match assoc (lit "total_count") meta with
          | Some (JInt c) =>
              if Z.eqb c (Z.of_nat (List.length records))
              then inr records
              else inl MalformedResponse
          | _ => inl MalformedResponse
          end
      | _, _ => inl MalformedResponse
      end
  | Some _ => inl MalformedResponse
  end.

End Persister.

(** ** Input shapes: the layout of a Google Places export, where a place
    is a dict whose optional [reviews] is a list of dicts with an optional
    numeric [rating] and an optional string [text]. *)
Definition place_ok (p : json) : Prop :=
  exists kv, p = JObj kv
    /\ (assoc (lit "reviews") kv = None
        \/ exists rs, assoc (lit "reviews") kv = Some (JArr rs) /\ Forall Invest.review_ok rs).

Definition data_ok (data : json) : Prop :=
  exists kv, data = JObj kv
    /\ (assoc (lit "places") kv = None
        \/ exists ps, assoc (lit "places") kv = Some (JArr ps) /\ Forall place_ok ps).

(** Shapes of the entries the extraction cell writes. *)
Definition kept_review_shape (x : json) : Prop :=
  exists a rt s, x = JObj [(lit "author_name", a); (lit "rating", rt);
                           (lit "text", JStr (strip s))]
    /\ truthy a = true /\ rt <> JNull.

Definition kept_place_shape (x : json) : Prop :=
  exists name ks, x = JObj [(lit "name", name); (lit "reviews", JArr ks)]
    /\ truthy name = true /\ ks <> [] /\ Forall kept_review_shape ks.

(** ** Auxiliary notions of the proofs. *)

Import Invest Fetcher Persister.

(** An int operand that converts to float exactly. *)
Definition small_int (x : pynum) : Prop :=
  match x with PInt z => (Z.abs z < 2 ^ 53)%Z | PFloat _ => True end.

(** A computation that raises nothing but [OverflowError]. *)
Definition raises_only_overflow {A} (m : py A) : Prop :=
  forall e, m = Raise e -> e = OverflowError.

(** The entry the report writes for a place whose score is [sc]. *)
Definition report_entry (p : json) (sc : pynum) : json :=
  JObj [(lit "name", Extract.field p (lit "name"));
        (lit "investment_score", json_of_num sc);
        (lit "reviews_count",
          JInt (Z.of_nat (List.length (Extract.list_field p (lit "reviews")))));
        (lit "rating", Extract.field p (lit "rating"))].

(** A bound on the rounding error of one floating-point operation whose
    exact result has magnitude at most [6 * 10^9]. *)
Definition dX : Q := (6000000001 # 1) * u53.

(** * Properties *)

(** ** Rounding to binary64. *)

Lemma round_half_even_close (y : Q) :
  y - (1 # 2) <= inject_Z (round_half_even y) <= y + (1 # 2).
Proof.
  unfold round_half_even.
  pose proof (Qfloor_le y) as H. pose proof (Qlt_floor y) as H0.
  rewrite inject_Z_plus in H0.
  assert (I1 : inject_Z 1 = 1) by reflexivity. rewrite I1 in H0.
  destruct (Qcompare_spec (y - inject_Z (Qfloor y)) (1 # 2)) as [E|E|E].
  - destruct (Z.even (Qfloor y)); [|rewrite inject_Z_plus, I1]; split; lra.
  - split; lra.
  - rewrite inject_Z_plus, I1. split; lra.
Qed.

Lemma round_half_even_int (z : Z) : round_half_even (inject_Z z) = z.
Proof.
  unfold round_half_even. rewrite Qfloor_Z.
  destruct (Qcompare_spec (inject_Z z - inject_Z z) (1 # 2)) as [E|E|E];
    [lra | reflexivity | lra].
Qed.

Lemma two_pow_pos (e : Z) : 0 < 2 ^ e.
Proof. apply Qpower_0_lt. reflexivity. Qed.

Lemma qlog2_le (a : Q) : 0 < a -> 2 ^ qlog2 a <= a.
Proof.
  intros Ha. destruct a as [n d]. unfold qlog2. cbn [Qnum Qden].
  destruct (Qle_bool (2 ^ (Z.log2 n - Z.log2 (Zpos d))) (n # d)) eqn:E;
    [apply Qle_bool_iff; exact E|].
  assert (Hn : (0 < n)%Z).
  { unfold Qlt in Ha. simpl in Ha. lia. }
  pose proof (Z.log2_spec n Hn) as [Ln _].
  pose proof (Z.log2_spec (Zpos d) ltac:(lia)) as [_ Ld].
  pose proof (Z.log2_nonneg n). pose proof (Z.log2_nonneg (Zpos d)).
  set (ln := Z.log2 n) in *. set (ld := Z.log2 (Zpos d)) in *.
  replace (ln - ld - 1)%Z with (ln - (ld + 1))%Z by lia.
  rewrite Qpower_minus by discriminate.
  change (2 ^ ln / 2 ^ (ld + 1)) with (inject_Z 2 ^ ln / inject_Z 2 ^ (ld + 1)).
  rewrite <- !Zpower_Qpower by lia.
  assert (P1 : (0 < 2 ^ (ld + 1))%Z) by (apply Z.pow_pos_nonneg; lia).
  unfold Qle, Qdiv, Qmult, Qinv. simpl.
  destruct (2 ^ (ld + 1))%Z as [|p|p] eqn:Ep; try lia. simpl.
  rewrite Z.mul_1_r.
  nia.
Qed.

Lemma eta_pos : 0 < eta.
Proof. apply two_pow_pos. Qed.

(** Rounding with spacing [p] moves a value by at most [p / 2]. *)
Lemma round_scaled_close (a p : Q) : 0 < p ->
  Qabs (inject_Z (round_half_even (a / p)) * p - a) <= p * (1 # 2).
Proof.
  intros Hp. apply Qabs_Qle_condition.
  destruct (round_half_even_close (a / p)) as [L U].
  set (r := inject_Z (round_half_even (a / p))) in *.
  assert (E : a / p * p == a) by (field; lra).
  assert (L' : (a / p - (1 # 2)) * p <= r * p) by (apply Qmult_le_compat_r; lra).
  assert (U' : r * p <= (a / p + (1 # 2)) * p) by (apply Qmult_le_compat_r; lra).
  assert (E1 : (a / p - (1 # 2)) * p == a - p * (1 # 2)) by (field; lra).
  assert (E2 : (a / p + (1 # 2)) * p == a + p * (1 # 2)) by (field; lra).
  rewrite E1 in L'. rewrite E2 in U'. split; lra.
Qed.

Lemma round_val_err (a : Q) : 0 < a -> Qabs (round_val a - a) <= a * u53 + eta.
Proof.
  intros Ha. unfold round_val.
  set (e := Z.max (qlog2 a - 52) (-1074)).
  set (p := 2 ^ e).
  assert (Hp : 0 < p) by apply two_pow_pos.
  eapply Qle_trans; [apply round_scaled_close; exact Hp|].
  pose proof eta_pos.
  assert (Ha0 : 0 <= a * u53) by (unfold u53; apply Qmult_le_0_compat; lra).
  unfold p, e. destruct (Z.max_spec (qlog2 a - 52) (-1074)) as [[_ M] | [_ M]];
    rewrite M.
  - unfold eta. change (1 # 2) with (2 ^ (-1)).
    rewrite <- Qpower_plus by discriminate. simpl Z.add. lra.
  - replace (qlog2 a - 52)%Z with (qlog2 a + -52)%Z by lia.
    rewrite Qpower_plus by discriminate.
    pose proof (qlog2_le a Ha) as Hl.
    set (A := 2 ^ qlog2 a) in *.
    assert (C : 2 ^ (-52) * (1 # 2) == u53) by reflexivity.
    assert (C2 : A * 2 ^ (-52) * (1 # 2) == A * u53) by (rewrite <- C; ring).
    rewrite C2.
    assert (A * u53 <= a * u53) by (apply Qmult_le_compat_r; [exact Hl | unfold u53; lra]).
    lra.
Qed.

Lemma big_pos : 0 < big.
Proof. apply two_pow_pos. Qed.

Lemma eta_small : eta <= u53.
Proof. unfold eta, u53. change (1 # 9007199254740992) with (2 ^ (-53)).
  apply Qpower_le_compat_l; [lia | discriminate]. Qed.

Lemma round_pos_some (a : Q) : 0 < a -> a <= big ->
  round_pos a = Some (Qred (round_val a)).
Proof.
  intros Ha Hb. unfold round_pos.
  destruct (Qle_bool (2 ^ 1024) (round_val a)) eqn:E; [|reflexivity].
  exfalso. apply Qle_bool_iff in E.
  pose proof (round_val_err a Ha) as Er. apply Qabs_Qle_condition in Er.
  assert (B : 2 ^ 1024 == big * 2)
    by (unfold big; change 2 with (2 ^ 1) at 3; rewrite <- Qpower_plus by discriminate;
        reflexivity).
  rewrite B in E. pose proof big_pos. pose proof eta_small.
  assert (a * u53 <= big * u53) by (apply Qmult_le_compat_r; [exact Hb | unfold u53; lra]).
  assert (1 <= big) by (unfold big; vm_compute; discriminate).
  unfold u53 in *. lra.
Qed.

Lemma fl_err (zneg : bool) (x : Q) : Qabs x <= big ->
  exists v, fval (fl zneg x) = Some v /\ Qabs (v - x) <= Qabs x * u53 + eta.
Proof.
  intros Hb. pose proof eta_pos.
  assert (Hu : 0 <= Qabs x) by apply Qabs_nonneg.
  unfold fl. destruct (Qcompare_spec x 0) as [E|E|E].
  - exists 0. split; [destruct zneg; reflexivity|].
    rewrite E. simpl. unfold u53. lra.
  - assert (Ax : Qabs x == - x) by (apply Qabs_neg; lra).
    assert (Ha : 0 < - x) by lra.
    assert (Hb' : - x <= big) by lra.
    rewrite (round_pos_some (- x) Ha Hb').
    pose proof (round_val_err (- x) Ha) as Er. apply Qabs_Qle_condition in Er.
    pose proof (Qred_correct (round_val (- x))) as Rc.
    destruct (Qeq_bool (Qred (round_val (- x))) 0) eqn:Z0.
    + exists 0. split; [reflexivity|].
      apply Qeq_bool_iff in Z0.
      apply Qabs_Qle_condition. unfold u53 in *. lra.
    + exists (- Qred (round_val (- x))). split; [reflexivity|].
      apply Qabs_Qle_condition. unfold u53 in *. lra.
  - assert (Ax : Qabs x == x) by (apply Qabs_pos; lra).
    assert (Hb' : x <= big) by lra.
    rewrite (round_pos_some x E Hb').
    pose proof (round_val_err x E) as Er. apply Qabs_Qle_condition in Er.
    pose proof (Qred_correct (round_val x)) as Rc.
    destruct (Qeq_bool (Qred (round_val x)) 0) eqn:Z0.
    + exists 0. split; [reflexivity|].
      apply Qeq_bool_iff in Z0.
      apply Qabs_Qle_condition. unfold u53 in *. lra.
    + exists (Qred (round_val x)). split; [reflexivity|].
      apply Qabs_Qle_condition. unfold u53 in *. lra.
Qed.

Lemma round_half_even_wd (x y : Q) : x == y -> round_half_even x = round_half_even y.
Proof.
  intros H. unfold round_half_even. rewrite (Qfloor_comp x y H).
  assert (E : (x - inject_Z (Qfloor y) ?= 1 # 2) = (y - inject_Z (Qfloor y) ?= 1 # 2)).
  { apply Qcompare_comp; [rewrite H|]; reflexivity. }
  rewrite E. reflexivity.
Qed.

Lemma qlog2_int_le (z : Z) : (0 < z)%Z -> (qlog2 (inject_Z z) <= Z.log2 z)%Z.
Proof.
  intros Hz. unfold qlog2. cbn [Qnum Qden inject_Z]. rewrite Z.sub_0_r.
  destruct (Qle_bool _ _); lia.
Qed.

Lemma Qred_inject_Z (z : Z) : Qred (inject_Z z) = inject_Z z.
Proof.
  unfold Qred, inject_Z. cbn [Qnum Qden].
  pose proof (Z.ggcd_gcd z 1) as G. pose proof (Z.ggcd_correct_divisors z 1) as C.
  destruct (Z.ggcd z 1) as [g [a b]]. cbn [fst snd] in *.
  rewrite Z.gcd_1_r in G. subst g. destruct C as [C1 C2]. f_equal; lia.
Qed.

Lemma round_pos_int (z : Z) : (0 < z < 2 ^ 53)%Z ->
  round_pos (inject_Z z) = Some (inject_Z z).
Proof.
  intros [Hz Hz2].
  assert (Hl : (Z.log2 z < 53)%Z) by (apply Z.log2_lt_pow2; lia).
  pose proof (qlog2_int_le z Hz) as Hq.
  assert (Ha : 0 < inject_Z z) by (unfold Qlt; simpl; lia).
  assert (Hb : inject_Z z <= big).
  { unfold big. apply Qlt_le_weak. apply Qlt_le_trans with (inject_Z (2 ^ 53)).
    - rewrite <- Zlt_Qlt. exact Hz2.
    - rewrite Zpower_Qpower by lia. apply Qpower_le_compat_l; [lia | discriminate]. }
  rewrite (round_pos_some _ Ha Hb). f_equal.
  assert (Hv : round_val (inject_Z z) == inject_Z z).
  { unfold round_val.
    set (e := Z.max (qlog2 (inject_Z z) - 52) (-1074)).
    assert (He : (e <= 0)%Z) by (unfold e; lia).
    set (m := (- e)%Z).
    assert (Hm : (0 <= m)%Z) by (unfold m; lia).
    assert (Em : e = (- m)%Z) by (unfold m; lia).
    assert (P : 2 ^ e * inject_Z (2 ^ m) == 1).
    { rewrite Em, Qpower_opp. change (2 ^ m) with (inject_Z 2 ^ m).
      rewrite <- Zpower_Qpower by exact Hm.
      assert (Hp : (0 < 2 ^ m)%Z) by (apply Z.pow_pos_nonneg; lia).
      assert (Hq' : 0 < inject_Z (2 ^ m)) by (unfold Qlt; simpl; lia).
      field. intros C. rewrite C in Hq'. lra. }
    assert (D : inject_Z z / 2 ^ e == inject_Z (z * 2 ^ m)).
    { rewrite inject_Z_mult. assert (0 < 2 ^ e) by apply two_pow_pos.
      apply (Qmult_inj_r _ _ (2 ^ e)); [intros C; rewrite C in H; lra|].
      transitivity (inject_Z z); [field; intros C; rewrite C in H; lra|].
      transitivity (inject_Z z * (2 ^ e * inject_Z (2 ^ m))); [rewrite P; ring | ring]. }
    rewrite (round_half_even_wd _ _ D), round_half_even_int, inject_Z_mult.
    transitivity (inject_Z z * (2 ^ e * inject_Z (2 ^ m))); [ring | rewrite P; ring]. }
  rewrite (Qred_complete _ _ Hv). apply Qred_inject_Z.
Qed.

Lemma fl_int (zneg : bool) (z : Z) : (Z.abs z < 2 ^ 53)%Z ->
  fl zneg (inject_Z z) = if (z =? 0)%Z then fl zneg 0 else Fin (inject_Z z).
Proof.
  intros Hz. destruct (Z.eqb_spec z 0) as [->|Hn]; [reflexivity|].
  unfold fl. destruct (Z.lt_total z 0) as [Hl|[Hl|Hl]]; [| contradiction |].
  - assert (C : (inject_Z z ?= 0) = Lt)
      by (unfold Qcompare; simpl; rewrite Z.mul_1_r; apply Z.compare_lt_iff; lia).
    rewrite C.
    change (- inject_Z z) with (inject_Z (- z)).
    rewrite (round_pos_int (- z)) by lia.
    destruct (Qeq_bool (inject_Z (- z)) 0) eqn:E.
    + apply Qeq_bool_iff in E. unfold Qeq in E. simpl in E. lia.
    + change (- inject_Z (- z)) with (inject_Z (- - z)). rewrite Z.opp_involutive.
      reflexivity.
  - assert (C : (inject_Z z ?= 0) = Gt)
      by (unfold Qcompare; simpl; rewrite Z.mul_1_r; apply Z.compare_gt_iff; lia).
    rewrite C. rewrite (round_pos_int z) by lia.
    destruct (Qeq_bool (inject_Z z) 0) eqn:E; [|reflexivity].
    apply Qeq_bool_iff in E. unfold Qeq in E. simpl in E. lia.
Qed.

(** Ints of magnitude below [2^53] convert to float exactly. *)
Lemma int_to_float_exact (z : Z) : (Z.abs z < 2 ^ 53)%Z ->
  exists f, int_to_float z = Ok f /\ fval f = Some (inject_Z z).
Proof.
  intros Hz. unfold int_to_float. rewrite (fl_int false z Hz).
  destruct (Z.eqb_spec z 0) as [->|Hn]; eexists; split; reflexivity.
Qed.

Lemma fval_cases (f : f64) (x : Q) :
  fval f = Some x -> f = Fin x \/ (f = NegZero /\ x = 0).
Proof.
  destruct f; simpl; intros H; injection H as <- || discriminate H; auto.
Qed.

Lemma fq_fval (f : f64) (x : Q) : fval f = Some x -> fq f = x.
Proof. intros H. destruct (fval_cases f x H) as [->|[-> ->]]; reflexivity. Qed.

Lemma fadd_fin (a b : f64) (x y : Q) : fval a = Some x -> fval b = Some y ->
  exists z, fadd a b = fl z (x + y).
Proof.
  intros Ha Hb.
  destruct (fval_cases a x Ha) as [->|[-> ->]];
    destruct (fval_cases b y Hb) as [->|[-> ->]]; eexists; reflexivity.
Qed.

Lemma fmul_fin (a b : f64) (x y : Q) : fval a = Some x -> fval b = Some y ->
  exists z, fmul a b = fl z (x * y).
Proof.
  intros Ha Hb.
  destruct (fval_cases a x Ha) as [->|[-> ->]];
    destruct (fval_cases b y Hb) as [->|[-> ->]]; eexists; reflexivity.
Qed.

Lemma fzero_false (b : f64) (y : Q) : fval b = Some y -> ~ y == 0 -> fzero b = false.
Proof.
  intros Hb Hy. destruct (fval_cases b y Hb) as [->|[-> ->]].
  - simpl. destruct (Qeq_bool y 0) eqn:E; [|reflexivity].
    apply Qeq_bool_iff in E. contradiction.
  - exfalso. apply Hy. reflexivity.
Qed.

Lemma fdiv_fin (a b : f64) (x y : Q) : fval a = Some x -> fval b = Some y ->
  ~ y == 0 -> exists z, fdiv a b = fl z (x / y).
Proof.
  intros Ha Hb Hy. pose proof (fzero_false b y Hb Hy) as Fz.
  destruct (fval_cases a x Ha) as [->|[-> ->]];
    destruct (fval_cases b y Hb) as [->|[-> ->]];
    try (exfalso; apply Hy; reflexivity);
    unfold fdiv; rewrite Fz; eexists; reflexivity.
Qed.

(** Rounding error of one operation on a value of magnitude at most [M]. *)
Lemma fl_close (zneg : bool) (x M : Q) : - M <= x <= M -> M <= big ->
  exists v, fval (fl zneg x) = Some v
    /\ x - (M * u53 + eta) <= v <= x + (M * u53 + eta).
Proof.
  intros Hx HM.
  assert (Ax : Qabs x <= M) by (apply Qabs_Qle_condition; lra).
  destruct (fl_err zneg x ltac:(lra)) as (v & Hv & Er).
  exists v. split; [exact Hv|].
  assert (Qabs x * u53 <= M * u53) by (apply Qmult_le_compat_r; [exact Ax | unfold u53; lra]).
  apply Qabs_Qle_condition in Er. lra.
Qed.

(** ** Python arithmetic on finite numbers. *)

Lemma to_float_val (x : pynum) (a : Q) : num_val x = Some a -> small_int x ->
  exists f, to_float x = Ok f /\ fval f = Some a.
Proof.
  intros Hx Hs. destruct x as [z|f]; simpl in *.
  - injection Hx as <-. exact (int_to_float_exact z Hs).
  - exists f. split; [reflexivity | exact Hx].
Qed.

Lemma inject_Z_close (x y : Q) (M : Q) : x == y -> 0 <= M ->
  y - M <= x <= y + M.
Proof. intros H HM. rewrite H. lra. Qed.

Lemma py_add_close (x y : pynum) (a b M : Q) :
  num_val x = Some a -> num_val y = Some b -> small_int x -> small_int y ->
  - M <= a + b <= M -> M <= big ->
  exists r c, py_add x y = Ok r /\ num_val r = Some c
    /\ a + b - (M * u53 + eta) <= c <= a + b + (M * u53 + eta).
Proof.
  intros Hx Hy Sx Sy Hab HM. pose proof eta_pos.
  assert (HM0 : 0 <= M * u53 + eta)
    by (assert (0 <= M * u53) by (unfold u53; apply Qmult_le_0_compat; lra); lra).
  destruct x as [z1|f1]; destruct y as [z2|f2];
    try (destruct (to_float_val _ _ Hx Sx) as (fa & Ta & Va);
         destruct (to_float_val _ _ Hy Sy) as (fb & Tb & Vb);
         destruct (fadd_fin fa fb a b Va Vb) as [zn Ez];
         destruct (fl_close zn (a + b) M Hab HM) as (v & Hv & Cv);
         eexists (PFloat (fadd fa fb)), v;
         unfold py_add; rewrite ?Ta, ?Tb; cbn [py_bind]; rewrite ?Ta, ?Tb;
         cbn [py_bind]; rewrite Ez; split; [reflexivity | split; [exact Hv | exact Cv]]).
  simpl in Hx, Hy. injection Hx as <-. injection Hy as <-.
  exists (PInt (z1 + z2)), (inject_Z (z1 + z2)). split; [reflexivity|]. split; [reflexivity|].
  apply inject_Z_close; [rewrite inject_Z_plus; reflexivity | exact HM0].
Qed.

Lemma py_mul_close (x y : pynum) (a b M : Q) :
  num_val x = Some a -> num_val y = Some b -> small_int x -> small_int y ->
  - M <= a * b <= M -> M <= big ->
  exists r c, py_mul x y = Ok r /\ num_val r = Some c
    /\ a * b - (M * u53 + eta) <= c <= a * b + (M * u53 + eta).
Proof.
  intros Hx Hy Sx Sy Hab HM. pose proof eta_pos.
  assert (HM0 : 0 <= M * u53 + eta)
    by (assert (0 <= M * u53) by (unfold u53; apply Qmult_le_0_compat; lra); lra).
  destruct x as [z1|f1]; destruct y as [z2|f2];
    try (destruct (to_float_val _ _ Hx Sx) as (fa & Ta & Va);
         destruct (to_float_val _ _ Hy Sy) as (fb & Tb & Vb);
         destruct (fmul_fin fa fb a b Va Vb) as [zn Ez];
         destruct (fl_close zn (a * b) M Hab HM) as (v & Hv & Cv);
         eexists (PFloat (fmul fa fb)), v;
         unfold py_mul; rewrite ?Ta, ?Tb; cbn [py_bind]; rewrite ?Ta, ?Tb;
         cbn [py_bind]; rewrite Ez; split; [reflexivity | split; [exact Hv | exact Cv]]).
  simpl in Hx, Hy. injection Hx as <-. injection Hy as <-.
  exists (PInt (z1 * z2)), (inject_Z (z1 * z2)). split; [reflexivity|]. split; [reflexivity|].
  apply inject_Z_close; [rewrite inject_Z_mult; reflexivity | exact HM0].
Qed.

Lemma py_truediv_close (x : pynum) (n : Z) (a M : Q) :
  num_val x = Some a -> small_int x -> (0 < n < 2 ^ 53)%Z ->
  - M <= a / inject_Z n <= M -> M <= big ->
  exists r c, py_truediv x (PInt n) = Ok r /\ num_val r = Some c
    /\ a / inject_Z n - (M * u53 + eta) <= c <= a / inject_Z n + (M * u53 + eta).
Proof.
  intros Hx Sx Hn Ha HM.
  assert (Hn0 : ~ inject_Z n == 0) by (unfold Qeq; simpl; lia).
  destruct x as [z|f].
  - simpl in Hx. injection Hx as <-.
    destruct (fl_close (xorb (z <? 0)%Z (n <? 0)%Z) (inject_Z z / inject_Z n) M Ha HM)
      as (v & Hv & Cv).
    exists (PFloat (fl (xorb (z <? 0)%Z (n <? 0)%Z) (inject_Z z / inject_Z n))), v.
    split; [|split; [exact Hv | exact Cv]].
    unfold py_truediv, int_truediv.
    assert (E : (n =? 0)%Z = false) by (apply Z.eqb_neq; lia). rewrite E.
    destruct (fl _ _) as [q| |s|]; try reflexivity; discriminate Hv.
  - destruct (int_to_float_exact n ltac:(lia)) as (fb & Tb & Vb).
    destruct (fdiv_fin f fb a (inject_Z n) Hx Vb Hn0) as [zn Ez].
    destruct (fl_close zn (a / inject_Z n) M Ha HM) as (v & Hv & Cv).
    exists (PFloat (fdiv f fb)), v.
    split; [|split; [rewrite Ez; exact Hv | exact Cv]].
    unfold py_truediv. cbn [to_float py_bind]. rewrite Tb. cbn [py_bind].
    rewrite (fzero_false fb (inject_Z n) Vb Hn0). reflexivity.
Qed.

(** [round(x, 2)] on a finite float: the nearest double to [k / 100],
    where [k] is [100 x] rounded half to even. *)
Lemma py_round2_close (f : f64) (v : Q) :
  fval f = Some v -> Qabs v <= big * (1 # 2) ->
  exists g w, py_round2 (PFloat f) = Ok (PFloat g) /\ fval g = Some w
    /\ inject_Z (round_half_even (v * 100)) / 100
         - (Qabs (inject_Z (round_half_even (v * 100)) / 100) * u53 + eta)
       <= w
       <= inject_Z (round_half_even (v * 100)) / 100
          + (Qabs (inject_Z (round_half_even (v * 100)) / 100) * u53 + eta).
Proof.
  intros Hf Hv. pose proof eta_pos.
  set (k := round_half_even (v * 100)).
  set (y := inject_Z k / 100).
  assert (Hy0 : 0 <= Qabs y * u53)
    by (unfold u53; apply Qmult_le_0_compat; [apply Qabs_nonneg | lra]).
  destruct (fval_cases f v Hf) as [->|[-> ->]].
  - destruct (Z.eqb_spec k 0) as [K|K].
    + exists (if Qle_bool 0 v then Fin 0 else NegZero), 0.
      split; [unfold py_round2; fold k; rewrite K; reflexivity|].
      split; [destruct (Qle_bool 0 v); reflexivity|].
      unfold y. rewrite K. change (inject_Z 0 / 100) with (0 # 100). change (Qabs (0 # 100)) with (0 # 100). lra.
    + assert (Hk : Qabs y <= big).
      { destruct (round_half_even_close (v * 100)) as [L U]. fold k in L, U.
        apply Qabs_Qle_condition in Hv. apply Qabs_Qle_condition.
        assert (1 <= big) by (unfold big, Qle; vm_compute; intros C; discriminate C).
        unfold y. split.
        - apply Qle_shift_div_l; [reflexivity | lra].
        - apply Qle_shift_div_r; [reflexivity | lra]. }
      destruct (fl_err false y Hk) as (w & Hw & Er).
      exists (fl false y), w.
      split; [|split; [exact Hw | apply Qabs_Qle_condition in Er; lra]].
      unfold py_round2. fold k. apply Z.eqb_neq in K. rewrite K. fold y.
      destruct (fl false y) as [q| |s|]; try reflexivity; discriminate Hw.
  - exists NegZero, 0. split; [reflexivity|]. split; [reflexivity|].
    assert (K : k = 0%Z) by reflexivity.
    unfold y. rewrite K. change (inject_Z 0 / 100) with (0 # 100). change (Qabs (0 # 100)) with (0 # 100). lra.
Qed.

(** Rounding half to even lands on an integer [m] or above when the value
    is more than [m - 1/2], and on [m] or below when it is less than
    [m + 1/2]. *)
Lemma round_half_even_ge (m : Z) (x : Q) :
  inject_Z m - (1 # 2) < x -> (m <= round_half_even x)%Z.
Proof.
  intros H. destruct (round_half_even_close x) as [L _].
  assert (inject_Z (m - 1) < inject_Z (round_half_even x)).
  { assert (inject_Z (m - 1) == inject_Z m - 1) by (unfold Qeq; simpl; lia). lra. }
  rewrite <- Zlt_Qlt in H0. lia.
Qed.

Lemma round_half_even_le (m : Z) (x : Q) :
  x < inject_Z m + (1 # 2) -> (round_half_even x <= m)%Z.
Proof.
  intros H. destruct (round_half_even_close x) as [_ U].
  assert (inject_Z (round_half_even x) < inject_Z (m + 1)).
  { assert (inject_Z (m + 1) == inject_Z m + 1) by (unfold Qeq; simpl; lia). lra. }
  rewrite <- Zlt_Qlt in H0. lia.
Qed.

(** The operations raise nothing but [OverflowError] on numbers, and a
    division by a positive int raises no [ZeroDivisionError]. *)

Lemma int_to_float_overflow (z : Z) : raises_only_overflow (int_to_float z).
Proof.
  intros e. unfold int_to_float. destruct (fl false (inject_Z z)); congruence.
Qed.

Lemma to_float_overflow (x : pynum) : raises_only_overflow (to_float x).
Proof. destruct x as [z|f]; [apply int_to_float_overflow | intros e H; discriminate H]. Qed.

Lemma bind_overflow {A B} (m : py A) (k : A -> py B) :
  raises_only_overflow m -> (forall a, raises_only_overflow (k a)) ->
  raises_only_overflow (py_bind m k).
Proof.
  intros Hm Hk e. destruct m as [a|e']; simpl; [apply Hk|].
  intros H. injection H as <-. apply Hm. reflexivity.
Qed.

Lemma ok_overflow {A} (a : A) : raises_only_overflow (Ok a).
Proof. intros e H. discriminate H. Qed.

Lemma py_add_overflow (x y : pynum) : raises_only_overflow (py_add x y).
Proof.
  destruct x, y; unfold py_add;
    repeat (apply bind_overflow; [apply to_float_overflow | intros ?]);
    apply ok_overflow.
Qed.

Lemma py_mul_overflow (x y : pynum) : raises_only_overflow (py_mul x y).
Proof.
  destruct x, y; unfold py_mul;
    repeat (apply bind_overflow; [apply to_float_overflow | intros ?]);
    apply ok_overflow.
Qed.

Lemma int_pos_not_fzero (n : Z) (f : f64) : (0 < n)%Z ->
  int_to_float n = Ok f -> fzero f = false.
Proof.
  intros Hn H. unfold int_to_float, fl in H.
  assert (Ha : 0 < inject_Z n) by (unfold Qlt; simpl; lia).
  assert (C : (inject_Z n ?= 0) = Gt)
    by (unfold Qcompare; simpl; rewrite Z.mul_1_r; apply Z.compare_gt_iff; lia).
  rewrite C in H. unfold round_pos in H.
  destruct (Qle_bool (2 ^ 1024) (round_val (inject_Z n))); [discriminate H|].
  pose proof (round_val_err (inject_Z n) Ha) as Er. apply Qabs_Qle_condition in Er.
  pose proof eta_small.
  assert (H1 : 1 <= inject_Z n) by (unfold Qle; simpl; lia).
  assert (inject_Z n * u53 <= inject_Z n * (1 # 2))
    by (rewrite !(Qmult_comm (inject_Z n)); apply Qmult_le_compat_r; [unfold u53; lra | lra]).
  destruct (Qeq_bool (Qred (round_val (inject_Z n))) 0) eqn:Z0.
  - exfalso. apply Qeq_bool_iff in Z0. rewrite Qred_correct in Z0.
    unfold u53 in *. lra.
  - injection H as <-. exact Z0.
Qed.

Lemma py_truediv_overflow (x : pynum) (n : Z) : (0 < n)%Z ->
  raises_only_overflow (py_truediv x (PInt n)).
Proof.
  intros Hn. destruct x as [z|f].
  - unfold py_truediv, int_truediv.
    assert (E : (n =? 0)%Z = false) by (apply Z.eqb_neq; lia). rewrite E.
    apply bind_overflow; [|intros; apply ok_overflow].
    intros e. destruct (fl _ _); congruence.
  - unfold py_truediv. cbn [to_float py_bind].
    intros e. destruct (int_to_float n) as [fb|e'] eqn:T; cbn [py_bind].
    + rewrite (int_pos_not_fzero n fb Hn T). intros H; discriminate H.
    + intros H. injection H as <-. exact (int_to_float_overflow n e' T).
Qed.

Lemma py_round2_overflow (x : pynum) : raises_only_overflow (py_round2 x).
Proof.
  intros e. destruct x as [z|[q| |s|]]; simpl; try congruence.
  destruct (_ =? 0)%Z; [congruence|]. destruct (fl false _); congruence.
Qed.

(** ** The claims. *)

(** Helper: the provider never reports [InvalidInput]. *)
Lemma lift_error_not_invalid (e : provider_error) : lift_error e <> InvalidInput.
Proof. destruct e; discriminate. Qed.

Lemma paginate_not_invalid fp p n tok acc :
  fst (paginate fp p n tok acc) <> inl InvalidInput.
Proof.
  revert tok acc; induction n as [|n IH]; intros tok acc; simpl.
  - discriminate.
  - destruct (fp p tok) as [e|[recs [t|]]].
    + simpl. intros H. injection H. apply lift_error_not_invalid.
    + destruct n as [|n'].
      * discriminate.
      * specialize (IH (Some t) (acc ++ recs)).
        destruct (paginate fp p (S n') (Some t) (acc ++ recs)) as [r tr].
        exact IH.
    + discriminate.
Qed.

(** Helper: one unfolding step of [paginate]. *)
Lemma paginate_S fp p n tok acc :
  paginate fp p (S n) tok acc
  = match fp p tok with
    | inl e => (inl (lift_error e), [Request tok])
    | inr (recs, next) =>
        match next, n with
        | Some t, S _ =>
            let '(r, tr) := paginate fp p n (Some t) (acc ++ recs) in
            (r, Request tok :: Sleep :: tr)
        | _, _ => (inr (acc ++ recs), [Request tok])
        end
    end.
Proof. reflexivity. Qed.

(** C1: a place whose review list is absent or empty scores the default 0,
    without raising. *)
Theorem compute_investment_score_no_reviews (polarity : pystr -> f64)
  (kv : list (pystr * json)) :
  assoc (lit "reviews") kv = None \/ assoc (lit "reviews") kv = Some (JArr []) ->
  compute_investment_score polarity (JObj kv) = Ok (PInt 0).
Proof.
  intros [H | H]; unfold compute_investment_score, dict_get; rewrite H;
    reflexivity.
Qed.

Lemma compute_investment_score_no_reviews_witness :
  (assoc (lit "reviews") [(lit "name", JStr (lit "A"))] = None
   \/ assoc (lit "reviews") [(lit "name", JStr (lit "A"))] = Some (JArr []))
  /\ compute_investment_score (fun _ => Fin 0) (JObj [(lit "name", JStr (lit "A"))])
     = Ok (PInt 0).
Proof.
  split.
  - left; reflexivity.
  - apply (compute_investment_score_no_reviews (fun _ => Fin 0)); left; reflexivity.
Defined.

(** C3 (counterexample): a place with a name and no [reviews] key is
    dropped from the extraction output instead of appearing with an empty
    review list. *)
Lemma extract_no_reviews_key_dropped :
  Extract.extract_cell
    (JObj [(lit "places", JArr [JObj [(lit "name", JStr (lit "Cafe"))]])])
  = Ok [].
Proof. reflexivity. Qed.

(** C3 (amended): extracting a place without a [reviews] key raises
    nothing; its review list is empty, so the place is not emitted. *)
Theorem extract_place_no_reviews_key (kv : list (pystr * json)) :
  assoc (lit "reviews") kv = None -> Extract.extract_place (JObj kv) = Ok None.
Proof.
  intros H. unfold Extract.extract_place, dict_get. rewrite H.
  destruct (assoc (lit "name") kv); simpl; try rewrite andb_false_r; reflexivity.
Qed.

Lemma extract_place_no_reviews_key_witness :
  assoc (lit "reviews") [(lit "name", JStr (lit "Cafe"))] = None
  /\ Extract.extract_place (JObj [(lit "name", JStr (lit "Cafe"))]) = Ok None.
Proof.
  split; [reflexivity | apply extract_place_no_reviews_key; reflexivity].
Defined.

(** C4 (counterexample): a top-level mapping without a [places] key is not
    a failure: both cells complete with an empty result. *)
Lemma missing_places_key_not_failure :
  Extract.extract_cell (JObj []) = Ok []
  /\ report_cell (fun _ => Fin 0) (JObj []) = Ok [].
Proof. split; reflexivity. Qed.

(** C4 (amended): a top-level value that is not a mapping makes both cells
    raise [AttributeError]; a mapping without [places] gives an empty
    result in both cells. *)
Theorem top_level_structure (polarity : pystr -> f64) :
  (forall data, (forall kv, data <> JObj kv) ->
     Extract.extract_cell data = Raise AttributeError
     /\ report_cell polarity data = Raise AttributeError)
  /\ (forall kv, assoc (lit "places") kv = None ->
     Extract.extract_cell (JObj kv) = Ok []
     /\ report_cell polarity (JObj kv) = Ok []).
Proof.
  split.
  - intros data Hnot.
    destruct data as [| | | | | |kv]; try (split; reflexivity).
    exfalso; exact (Hnot kv eq_refl).
  - intros kv H. unfold Extract.extract_cell, report_cell, dict_get.
    rewrite H. split; reflexivity.
Qed.

Lemma top_level_structure_witness :
  (forall kv, JArr [] <> JObj kv) /\ assoc (lit "places") [] = None
  /\ Extract.extract_cell (JArr []) = Raise AttributeError
  /\ Extract.extract_cell (JObj []) = Ok [].
Proof.
  assert (Hn : forall kv, JArr [] <> JObj kv) by discriminate.
  split; [exact Hn | split; [reflexivity | split]].
  - apply (proj1 (top_level_structure (fun _ => Fin 0)) (JArr []) Hn).
  - apply (proj2 (top_level_structure (fun _ => Fin 0)) [] eq_refl).
Defined.

(** C6: loading the file that [save] wrote returns the saved records. *)
Theorem load_save_roundtrip (timestamp : pystr) (path : string)
  (records : list json) (f : fs) :
  load (save timestamp records path f) path = inr records.
Proof.
  unfold load, save, fs_write. rewrite String.eqb_refl.
  transitivity (if Z.eqb (Z.of_nat (List.length records)) (Z.of_nat (List.length records))
                then inr records else inl MalformedResponse : sum error_kind (list json)).
  - reflexivity.
  - rewrite Z.eqb_refl. reflexivity.
Qed.

(** C7: a radius outside [1, 50000] is rejected with [InvalidInput]; with
    a valid coordinate and keyword, the run fails with [InvalidInput]
    exactly when the radius lies outside [1, 50000]. *)
Theorem radius_validation fetch_page (p : search_params) :
  (~ (1 <= radius p <= 50000)%Z ->
     fst (search_nearby_places fetch_page p) = inl InvalidInput)
  /\ (Qle_bool (-90) (latitude p) && Qle_bool (latitude p) 90
      && Qle_bool (-180) (longitude p) && Qle_bool (longitude p) 180
      && negb (String.eqb (keyword p) EmptyString) = true ->
     (fst (search_nearby_places fetch_page p) <> inl InvalidInput
      <-> (1 <= radius p <= 50000)%Z)).
Proof.
  assert (Hr : valid_radius (radius p) = true <-> (1 <= radius p <= 50000)%Z).
  { unfold valid_radius. rewrite andb_true_iff, !Z.leb_le. reflexivity. }
  unfold search_nearby_places, validate_params.
  split.
  - intros Hout.
    destruct (valid_radius (radius p)) eqn:E.
    + exfalso. apply Hout, Hr; reflexivity.
    + rewrite andb_false_r. reflexivity.
  - intros Hc. rewrite Hc. cbn -[paginate]. split.
    + intros Hne. apply Hr.
      destruct (valid_radius (radius p)); [reflexivity|].
      exfalso; apply Hne; reflexivity.
    + intros Hin. apply Hr in Hin. rewrite Hin.
      apply paginate_not_invalid.
Qed.

Lemma radius_validation_witness :
  fst (search_nearby_places (fun _ _ => inr ([], None))
         {| latitude := 0; longitude := 0; keyword := "cafe"; radius := 0 |})
    = inl InvalidInput
  /\ fst (search_nearby_places (fun _ _ => inr ([], None))
         {| latitude := 0; longitude := 0; keyword := "cafe"; radius := 2000 |})
    <> inl InvalidInput.
Proof.
  split.
  - apply (proj1 (radius_validation (fun _ _ => inr ([], None))
             {| latitude := 0; longitude := 0; keyword := "cafe"; radius := 0 |})).
    simpl; lia.
  - apply (proj2 (radius_validation (fun _ _ => inr ([], None))
             {| latitude := 0; longitude := 0; keyword := "cafe"; radius := 2000 |})).
    + reflexivity.
    + simpl; lia.
Defined.

(** Helpers for the score: adding a sentiment (a float) to the running
    sentiment total, [0] or a float, always succeeds with a float. *)
Lemma sentiment_add (ts : pynum) (f : f64) :
  (ts = PInt 0 \/ exists g, ts = PFloat g) ->
  exists g, py_add ts (PFloat f) = Ok (PFloat g).
Proof. intros [-> | [g ->]]; eexists; reflexivity. Qed.

(** The review loop computes the running rating total (0 for a missing
    rating) and the running sentiment total (the sentiment of "" for a
    missing text) from left to right; only the rating additions can
    raise. *)
Lemma score_loop_sums (polarity : pystr -> f64) (rs : list json) (tr ts : pynum) :
  Forall review_ok rs -> (ts = PInt 0 \/ exists g, ts = PFloat g) ->
  score_loop polarity rs tr ts
  = (let* tr' := py_sum_from tr (map rating_or_0 rs) in
     let* ts' := py_sum_from ts (map (fun r => PFloat (polarity (text_or_empty r))) rs) in
     Ok (tr', ts')).
Proof.
  intros Hok. revert tr ts.
  induction Hok as [|r rs Hr Hrs IH]; intros tr ts Hts; [reflexivity|].
  destruct Hr as (kv & -> & Hrat & Htxt).
  assert (Hs : exists s, dict_get (JObj kv) (lit "text") (JStr []) = Ok (JStr s)
                         /\ text_or_empty (JObj kv) = s).
  { unfold dict_get, text_or_empty.
    destruct Htxt as [Htxt | (s & Htxt)]; rewrite Htxt; eauto. }
  destruct Hs as (s & Ds & Ts).
  assert (Hx : exists x, dict_get (JObj kv) (lit "rating") (JInt 0) = Ok x
                         /\ py_num x = Ok (rating_or_0 (JObj kv))).
  { unfold dict_get, rating_or_0.
    destruct Hrat as [Hrat | (x & Hrat & Hn)]; rewrite Hrat; [eauto|].
    exists x. split; [reflexivity|].
    destruct x; try discriminate Hn; reflexivity. }
  destruct Hx as (x & Dx & Nx).
  cbn [score_loop map py_sum_from]. rewrite Dx, Ds. cbn [py_bind analyze_review_sentiment].
  unfold py_add_value. rewrite Nx. cbn [py_bind]. rewrite Ts.
  destruct (py_add tr (rating_or_0 (JObj kv))) as [tr1|e]; cbn [py_bind]; [|reflexivity].
  destruct (sentiment_add ts (polarity s) Hts) as [g Hg]. rewrite Hg. cbn [py_bind].
  rewrite (IH tr1 (PFloat g) ltac:(eauto)). reflexivity.
Qed.

Lemma compute_investment_score_formula (polarity : pystr -> f64)
  (kv : list (pystr * json)) (rs : list json) :
  assoc (lit "reviews") kv = Some (JArr rs) -> rs <> [] -> Forall review_ok rs ->
  compute_investment_score polarity (JObj kv)
  = investment_formula (map rating_or_0 rs)
      (map (fun r => PFloat (polarity (text_or_empty r))) rs) (Z.of_nat (List.length rs)).
Proof.
  intros Hrev Hne Hok.
  unfold compute_investment_score, dict_get. rewrite Hrev.
  assert (T : truthy (JArr rs) = true) by (destruct rs; [contradiction | reflexivity]).
  cbn [py_bind]. rewrite T. cbn [negb py_bind py_iter py_len].
  rewrite (score_loop_sums polarity rs (PInt 0) (PInt 0) Hok (or_introl eq_refl)).
  unfold investment_formula.
  destruct (py_sum_from (PInt 0) (map rating_or_0 rs)) as [tr|e]; cbn [py_bind]; [|reflexivity].
  destruct (py_sum_from (PInt 0) _) as [ts|e]; reflexivity.
Qed.

(** C2: for a place with at least one well-formed review (a dict with a
    numeric rating and a string text), the score is Python's
    [round((avg_rating * 0.5) + (avg_sentiment * 2) + (count * 0.05), 2)],
    where [avg_rating] and [avg_sentiment] are the sums of the ratings and
    of the sentiments, taken from 0 left to right, divided by the count
    [len(reviews)]; every operation is Python's on [int] and [float],
    exceptions included. *)
Theorem compute_investment_score_linear (polarity : pystr -> f64)
  (kv : list (pystr * json)) (rs : list json) :
  assoc (lit "reviews") kv = Some (JArr rs) -> rs <> [] ->
  Forall review_well_formed rs ->
  compute_investment_score polarity (JObj kv)
  = investment_formula (map rating_or_0 rs)
      (map (fun r => PFloat (polarity (text_or_empty r))) rs)
      (Z.of_nat (List.length rs)).
Proof.
  intros Hrev Hne Hwf.
  apply (compute_investment_score_formula polarity kv rs Hrev Hne).
  eapply Forall_impl; [|exact Hwf].
  intros r (kv' & x & s & -> & Hx & Hn & Hs).
  exists kv'. split; [reflexivity|]. split; right; eauto.
Qed.

Lemma compute_investment_score_linear_witness :
  compute_investment_score (fun _ => Fin 0)
    (JObj [(lit "reviews",
            JArr [JObj [(lit "rating", JInt 5); (lit "text", JStr (lit "good"))];
                  JObj [(lit "rating", JInt 5); (lit "text", JStr (lit "good"))];
                  JObj [(lit "rating", JInt 5); (lit "text", JStr (lit "good"))];
                  JObj [(lit "rating", JInt 2); (lit "text", JStr (lit "bad"))]])])
  = Ok (PFloat (float_lit (233 # 100))).
Proof.
  rewrite (compute_investment_score_linear (fun _ => Fin 0)
    [(lit "reviews",
      JArr [JObj [(lit "rating", JInt 5); (lit "text", JStr (lit "good"))];
            JObj [(lit "rating", JInt 5); (lit "text", JStr (lit "good"))];
            JObj [(lit "rating", JInt 5); (lit "text", JStr (lit "good"))];
            JObj [(lit "rating", JInt 2); (lit "text", JStr (lit "bad"))]])]
    [JObj [(lit "rating", JInt 5); (lit "text", JStr (lit "good"))];
     JObj [(lit "rating", JInt 5); (lit "text", JStr (lit "good"))];
     JObj [(lit "rating", JInt 5); (lit "text", JStr (lit "good"))];
     JObj [(lit "rating", JInt 2); (lit "text", JStr (lit "bad"))]]).
  - vm_compute. reflexivity.
  - reflexivity.
  - discriminate.
  - repeat constructor;
      (eexists _, _, _; split; [reflexivity|]; split; [reflexivity|];
       split; reflexivity).
Defined.

(** C10: a review without a [rating] key adds the int 0 to the rating sum
    and one without [text] adds the sentiment of the empty string, while
    every review counts in the divisor [len(reviews)]. *)
Theorem compute_investment_score_missing_fields (polarity : pystr -> f64)
  (kv : list (pystr * json)) (rs : list json) :
  assoc (lit "reviews") kv = Some (JArr rs) -> rs <> [] -> Forall review_ok rs ->
  compute_investment_score polarity (JObj kv)
  = investment_formula
      (map (fun r => match r with
                     | JObj kv' => match assoc (lit "rating") kv' with
                                   | None => PInt 0
                                   | Some (JInt z) => PInt z
                                   | Some (JFloat f) => PFloat f
                                   | Some _ => PInt 0
                                   end
                     | _ => PInt 0
                     end) rs)
      (map (fun r => match r with
                     | JObj kv' => match assoc (lit "text") kv' with
                                   | None => PFloat (polarity [])
                                   | Some (JStr s) => PFloat (polarity s)
                                   | Some _ => PFloat (polarity [])
                                   end
                     | _ => PFloat (polarity [])
                     end) rs)
      (Z.of_nat (List.length rs)).
Proof.
  intros Hrev Hne Hok.
  rewrite (compute_investment_score_formula polarity kv rs Hrev Hne Hok).
  f_equal; apply map_ext; intros r; destruct r as [| | | | | |kv']; try reflexivity.
  all: cbn [text_or_empty rating_or_0];
    destruct (assoc _ kv') as [[| | | | | |]|]; reflexivity.
Qed.

Lemma compute_investment_score_missing_fields_witness :
  compute_investment_score (fun _ => Fin 0)
    (JObj [(lit "reviews",
            JArr [JObj [(lit "rating", JInt 4); (lit "text", JStr (lit "good"))];
                  JObj [(lit "author_name", JStr (lit "x"))]])])
  = Ok (PFloat (float_lit (110 # 100))).
Proof.
  rewrite (compute_investment_score_missing_fields (fun _ => Fin 0)
    [(lit "reviews",
      JArr [JObj [(lit "rating", JInt 4); (lit "text", JStr (lit "good"))];
            JObj [(lit "author_name", JStr (lit "x"))]])]
    [JObj [(lit "rating", JInt 4); (lit "text", JStr (lit "good"))];
     JObj [(lit "author_name", JStr (lit "x"))]]).
  - vm_compute. reflexivity.
  - reflexivity.
  - discriminate.
  - constructor; [|constructor; [|constructor]].
    + eexists. split; [reflexivity|]. split; right; eexists; [split|]; reflexivity.
    + eexists. split; [reflexivity|]. split; left; reflexivity.
Defined.

(** C8: with pages left, a run follows [chained]: it requests the next
    page only after a response carrying a token and below the cap; in
    particular a response without token ends the run after that page. *)
Theorem pagination_stops_without_token fetch_page (p : search_params)
  (n : nat) (tok : option string) (acc : list json) :
  (0 < n)%nat ->
  chained fetch_page p n tok (snd (paginate fetch_page p n tok acc))
  /\ (forall recs, fetch_page p tok = inr (recs, None) ->
      paginate fetch_page p n tok acc = (inr (acc ++ recs), [Request tok])).
Proof.
  intros Hn. destruct n as [|n]; [lia|]. clear Hn.
  split.
  - revert tok acc. induction n as [|n IH]; intros tok acc.
    + simpl. destruct (fetch_page p tok) as [e|[recs [t|]]] eqn:E; simpl.
      * eapply chain_error; eauto.
      * eapply chain_cap; eauto.
      * eapply chain_no_token; eauto.
    + rewrite paginate_S.
      destruct (fetch_page p tok) as [e|[recs [t|]]] eqn:E.
      * eapply chain_error; eauto.
      * specialize (IH (Some t) (acc ++ recs)).
        destruct (paginate fetch_page p (S n) (Some t) (acc ++ recs)) as [r tr].
        simpl in *. eapply chain_next; eauto.
      * eapply chain_no_token; eauto.
  - intros recs E. simpl. rewrite E. destruct n; reflexivity.
Qed.

Lemma pagination_stops_without_token_witness :
  paginate
    (fun _ tok => match tok with
                  | None => inr ([JStr (lit "a")], Some "t1"%string)
                  | Some _ => inr ([JStr (lit "b")], None)
                  end)
    {| latitude := 0; longitude := 0; keyword := "cafe"; radius := 100 |}
    2 (Some "t1"%string) [JStr (lit "a")]
  = (inr [JStr (lit "a"); JStr (lit "b")], [Request (Some "t1"%string)]).
Proof.
  apply (proj2 (pagination_stops_without_token
         (fun _ tok => match tok with
                       | None => inr ([JStr (lit "a")], Some "t1"%string)
                       | Some _ => inr ([JStr (lit "b")], None)
                       end)
         {| latitude := 0; longitude := 0; keyword := "cafe"; radius := 100 |}
         2 (Some "t1"%string) [JStr (lit "a")] ltac:(lia))).
  reflexivity.
Defined.

(** Helpers for the extraction cell. *)
Lemma dict_get_obj (kv : list (pystr * json)) (k : pystr) :
  dict_get (JObj kv) k JNull = Ok (Extract.field (JObj kv) k).
Proof. unfold dict_get, Extract.field. destruct (assoc k kv); reflexivity. Qed.

(** Iterating a value that is not a list yields strings: the characters
    of a string or the keys of a dict. *)
Lemma py_iter_cases (v : json) (items : list json) :
  py_iter v = Ok items ->
  (exists l, v = JArr l /\ items = l)
  \/ ((forall l, v <> JArr l) /\ Forall (fun x => exists s, x = JStr s) items).
Proof.
  intros H. destruct v as [| | | |s|l|kv]; simpl in H; try discriminate H;
    injection H as <-.
  - right. split; [discriminate|].
    apply Forall_map, Forall_forall. intros c _. eauto.
  - left. eauto.
  - right. split; [discriminate|].
    apply Forall_map, Forall_forall. intros x _. eauto.
Qed.

Lemma extract_review_spec (r : json) (o : option json) :
  Extract.extract_review r = Ok o ->
  o = if Extract.review_complete r then Some (Extract.kept_review r) else None.
Proof.
  intros H. destruct r as [| | | | | |kv]; try discriminate H.
  unfold Extract.extract_review in H. rewrite !dict_get_obj in H.
  cbn [py_bind] in H.
  case_eq (Extract.review_complete (JObj kv)); intros C;
    unfold Extract.review_complete in C; rewrite C in H.
  - unfold Extract.kept_review.
    destruct (Extract.field (JObj kv) (lit "text")) as [| | | | s | |] eqn:T;
      simpl in H; try discriminate H.
    injection H as <-. reflexivity.
  - injection H as <-. reflexivity.
Qed.

Lemma collect_reviews_spec (rs ks : list json) :
  Extract.collect_reviews rs = Ok ks -> ks = Extract.kept_reviews rs.
Proof.
  revert ks. induction rs as [|r rs IH]; intros ks H.
  - injection H as <-. reflexivity.
  - simpl in H.
    destruct (Extract.extract_review r) as [o|] eqn:E1; [|simpl in H; discriminate H].
    simpl in H.
    destruct (Extract.collect_reviews rs) as [rest|] eqn:E2; [|simpl in H; discriminate H].
    simpl in H. injection H as <-.
    apply extract_review_spec in E1. subst o.
    rewrite (IH rest eq_refl). unfold Extract.kept_reviews. simpl.
    destruct (Extract.review_complete r); reflexivity.
Qed.

Lemma collect_reviews_strs (items ks : list json) :
  Forall (fun x => exists s, x = JStr s) items ->
  Extract.collect_reviews items = Ok ks -> items = [].
Proof.
  intros HF H. destruct items as [|x items]; [reflexivity|].
  inversion HF as [|? ? [s ->] _]. simpl in H. discriminate H.
Qed.

Lemma collect_places_strs (items out : list json) :
  Forall (fun x => exists s, x = JStr s) items ->
  Extract.collect_places items = Ok out -> items = [].
Proof.
  intros HF H. destruct items as [|x items]; [reflexivity|].
  inversion HF as [|? ? [s ->] _]. simpl in H. discriminate H.
Qed.

Lemma extract_place_spec (place : json) (o : option json) :
  Extract.extract_place place = Ok o ->
  match o with Some x => [x] | None => [] end = Extract.spec_place place.
Proof.
  intros H. destruct place as [| | | | | |kv]; try discriminate H.
  unfold Extract.extract_place in H. rewrite dict_get_obj in H.
  cbn [py_bind] in H.
  assert (Hrev : exists items ks,
             Extract.collect_reviews items = Ok ks
             /\ ks = Extract.kept_reviews (Extract.list_field (JObj kv) (lit "reviews"))
             /\ (if truthy (Extract.field (JObj kv) (lit "name")) && truthy (JArr ks)
                 then Ok (Some (JObj [(lit "name", Extract.field (JObj kv) (lit "name"));
                                      (lit "reviews", JArr ks)]))
                 else Ok None) = Ok o).
  { unfold dict_get in H. unfold Extract.list_field, Extract.field.
    destruct (assoc (lit "reviews") kv) as [v|] eqn:R.
    - cbn [py_bind] in H.
      destruct (py_iter v) as [items|] eqn:I; try rewrite I in H;
        [|simpl in H; discriminate H]. simpl in H.
      destruct (Extract.collect_reviews items) as [ks|] eqn:Cl; try rewrite Cl in H;
        [|simpl in H; discriminate H].
      simpl in H. exists items, ks. split; [exact Cl|]. split; [|exact H].
      rewrite (collect_reviews_spec _ _ Cl).
      destruct (py_iter_cases v items I) as [(l & -> & ->) | (Hnot & HF)].
      + reflexivity.
      + rewrite (collect_reviews_strs _ _ HF Cl).
        destruct v as [| | | | |l|]; try reflexivity. exfalso; exact (Hnot l eq_refl).
    - simpl in H. exists [], []. split; [reflexivity|]. split; [reflexivity|]. exact H. }
  destruct Hrev as (items & ks & _ & Hks & Ho).
  unfold Extract.spec_place. rewrite <- Hks.
  destruct ks as [|k ks]; cbn [truthy negb] in Ho |- *.
  - rewrite andb_false_r in Ho |- *. injection Ho as <-. reflexivity.
  - rewrite andb_true_r in Ho |- *.
    destruct (truthy (Extract.field (JObj kv) (lit "name"))); injection Ho as <-; reflexivity.
Qed.

Lemma collect_places_spec (ps out : list json) :
  Extract.collect_places ps = Ok out -> out = flat_map Extract.spec_place ps.
Proof.
  revert out. induction ps as [|p ps IH]; intros out H.
  - injection H as <-. reflexivity.
  - simpl in H.
    destruct (Extract.extract_place p) as [o|] eqn:E1; [|simpl in H; discriminate H].
    simpl in H.
    destruct (Extract.collect_places ps) as [rest|] eqn:E2; [|simpl in H; discriminate H].
    simpl in H. injection H as <-. simpl.
    rewrite <- (extract_place_spec p o E1), (IH rest eq_refl).
    destruct o; reflexivity.
Qed.

(** C9: whenever the extraction cell completes, its output is exactly the
    claim's description: only places with a truthy name and at least one
    review whose author is truthy, rating is not None and text is truthy,
    each such review kept with its text stripped of Unicode whitespace and
    the others dropped. *)
Theorem extract_cell_refines (data : json) (out : list json) :
  Extract.extract_cell data = Ok out -> out = Extract.spec_extract data.
Proof.
  intros H. destruct data as [| | | | | |kv]; try discriminate H.
  unfold Extract.extract_cell, dict_get in H.
  unfold Extract.spec_extract, Extract.list_field, Extract.field.
  destruct (assoc (lit "places") kv) as [v|] eqn:P.
  - cbn [py_bind] in H.
    destruct (py_iter v) as [items|] eqn:I; [|simpl in H; discriminate H]. simpl in H.
    destruct (py_iter_cases v items I) as [(l & -> & ->) | (Hnot & HF)].
    + exact (collect_places_spec _ _ H).
    + pose proof (collect_places_strs _ _ HF H) as ->.
      injection H as <-.
      destruct v as [| | | | |l|]; try reflexivity. exfalso; exact (Hnot l eq_refl).
  - injection H as <-. reflexivity.
Qed.

Lemma extract_cell_refines_witness :
  Extract.spec_extract
    (JObj [(lit "places",
            JArr [JObj [(lit "name", JStr (lit "A"));
                        (lit "reviews",
                          JArr [JObj [(lit "author_name", JStr (lit "u"));
                                      (lit "rating", JInt 5);
                                      (lit "text", JStr ([160; 32]%Z ++ lit "hi" ++ [12288]%Z))];
                                JObj [(lit "author_name", JStr (lit "v"))]])];
                  JObj [(lit "name", JStr (lit "B"))]])])
  = [JObj [(lit "name", JStr (lit "A"));
           (lit "reviews",
             JArr [JObj [(lit "author_name", JStr (lit "u"));
                         (lit "rating", JInt 5);
                         (lit "text", JStr (lit "hi"))]])]].
Proof.
  symmetry. apply extract_cell_refines. vm_compute. reflexivity.
Defined.

(** ** Further properties of the notebook code. *)

(** Helpers on [str.strip()]. *)
Lemma lstrip_idem (l : pystr) : lstrip (lstrip l) = lstrip l.
Proof.
  induction l as [|c l IH]; [reflexivity|]. simpl.
  destruct (is_space c) eqn:E; [exact IH|]. simpl. rewrite E. reflexivity.
Qed.

Lemma lstrip_head (l : pystr) :
  lstrip l = [] \/ exists c m, lstrip l = c :: m /\ is_space c = false.
Proof.
  induction l as [|c l IH]; [left; reflexivity|]. simpl.
  destruct (is_space c) eqn:E; [exact IH|]. right. eauto.
Qed.

Lemma lstrip_app_last (l : pystr) (c : Z) :
  is_space c = false -> exists m, lstrip (l ++ [c]) = m ++ [c].
Proof.
  intros Hc. induction l as [|a l IH].
  - exists []. simpl. rewrite Hc. reflexivity.
  - simpl. destruct (is_space a); [exact IH|]. exists (a :: l). reflexivity.
Qed.

Lemma lstrip_all_space (l : pystr) :
  forallb is_space l = true -> lstrip l = [].
Proof.
  induction l as [|c l IH]; intros H; [reflexivity|].
  simpl in H |- *. apply andb_true_iff in H as [Hc Hl]. rewrite Hc. exact (IH Hl).
Qed.

Lemma strip_idem (s : pystr) : strip (strip s) = strip s.
Proof.
  unfold strip.
  destruct (lstrip_head s) as [E | (c & m & E & Hc)].
  - rewrite E. reflexivity.
  - rewrite E. simpl.
    destruct (lstrip_app_last (rev m) c Hc) as [k Hk]. rewrite Hk.
    rewrite rev_app_distr. simpl. rewrite Hc. simpl.
    rewrite rev_involutive, <- Hk, lstrip_idem, Hk, rev_app_distr.
    reflexivity.
Qed.

(** [str.strip()] is idempotent: stripping a kept review text again
    changes nothing. *)
Theorem strip_idempotent (s : pystr) : strip (strip s) = strip s.
Proof. apply strip_idem. Qed.

(** A stripped string is empty, or starts and ends with a character that
    is not whitespace. *)
Theorem strip_no_edge_space (s : pystr) :
  strip s = []
  \/ ((exists c rest, strip s = c :: rest /\ is_space c = false)
      /\ (exists c l, strip s = l ++ [c] /\ is_space c = false)).
Proof.
  unfold strip.
  destruct (lstrip_head s) as [E | (c & m & E & Hc)].
  - left. rewrite E. reflexivity.
  - right. rewrite E. simpl.
    destruct (lstrip_app_last (rev m) c Hc) as [k Hk]. rewrite Hk, rev_app_distr.
    split.
    + exists c, (rev k). split; [reflexivity | exact Hc].
    + destruct (lstrip_head (rev m ++ [c])) as [E2 | (d & m2 & E2 & Hd)].
      * rewrite Hk in E2. destruct k; discriminate E2.
      * exists d, (rev m2). rewrite <- rev_app_distr, <- Hk, E2.
        split; [reflexivity | exact Hd].
Qed.

(** A review whose text is non-empty but only whitespace passes the
    extraction filter and is kept with an empty text. *)
Theorem extract_review_blank_text (kv : list (pystr * json))
  (author rating : json) (s : pystr) :
  assoc (lit "author_name") kv = Some author -> truthy author = true ->
  assoc (lit "rating") kv = Some rating -> rating <> JNull ->
  assoc (lit "text") kv = Some (JStr s) -> s <> [] ->
  forallb is_space s = true ->
  Extract.extract_review (JObj kv)
  = Ok (Some (JObj [(lit "author_name", author); (lit "rating", rating);
                    (lit "text", JStr [])])).
Proof.
  intros Ha Hta Hr Hnn Ht Hne Hsp.
  unfold Extract.extract_review, dict_get. rewrite Ha, Hr, Ht. cbn [py_bind].
  rewrite Hta.
  assert (Hn : is_none rating = false)
    by (destruct rating; try reflexivity; contradiction).
  assert (Hs : truthy (JStr s) = true).
  { simpl. destruct s; [contradiction | reflexivity]. }
  rewrite Hn, Hs. simpl.
  unfold strip. rewrite (lstrip_all_space _ Hsp). reflexivity.
Qed.

Lemma extract_review_blank_text_witness :
  Extract.extract_review
    (JObj [(lit "author_name", JStr (lit "u")); (lit "rating", JInt 3);
           (lit "text", JStr [160; 12288; 10]%Z)])
  = Ok (Some (JObj [(lit "author_name", JStr (lit "u")); (lit "rating", JInt 3);
                    (lit "text", JStr [])])).
Proof.
  apply (extract_review_blank_text _ (JStr (lit "u")) (JInt 3) [160; 12288; 10]%Z);
    try reflexivity; discriminate.
Defined.

(** Helpers: on inputs of the export's shape no step of the extraction
    raises. *)
Lemma extract_review_total (r : json) :
  review_ok r -> exists o, Extract.extract_review r = Ok o.
Proof.
  intros (kv & -> & _ & Htxt).
  unfold Extract.extract_review. rewrite !dict_get_obj. cbn [py_bind].
  unfold Extract.field.
  destruct Htxt as [Ht | (s & Ht)]; rewrite Ht; simpl.
  - rewrite andb_false_r. eauto.
  - repeat match goal with |- context [if ?b then _ else _] => destruct b end;
      simpl; eauto.
Qed.

Lemma collect_reviews_total (rs : list json) :
  Forall review_ok rs -> exists ks, Extract.collect_reviews rs = Ok ks.
Proof.
  intros Hrs. induction Hrs as [|r0 rs0 Hr _ [ks IH]]; [simpl; eauto|].
  destruct (extract_review_total r0 Hr) as [o Ho].
  simpl. rewrite Ho. simpl. rewrite IH. simpl. eauto.
Qed.

Lemma extract_place_total (p : json) :
  place_ok p -> exists o, Extract.extract_place p = Ok o.
Proof.
  intros (kv & -> & Hrev).
  unfold Extract.extract_place. rewrite dict_get_obj. cbn [py_bind].
  unfold dict_get.
  destruct Hrev as [R | (rs & R & Hrs)]; rewrite R; cbn [py_bind py_iter].
  - simpl. destruct (_ && _); eauto.
  - destruct (collect_reviews_total rs Hrs) as [ks Hks]. rewrite Hks.
    cbn [py_bind]. destruct (_ && _); eauto.
Qed.

Lemma collect_places_total (ps : list json) :
  Forall place_ok ps -> exists out, Extract.collect_places ps = Ok out.
Proof.
  intros Hps. induction Hps as [|p0 ps0 Hp _ [out IH]]; [simpl; eauto|].
  destruct (extract_place_total p0 Hp) as [o Ho].
  simpl. rewrite Ho. simpl. rewrite IH. simpl. eauto.
Qed.

(** The review-extraction cell never raises on an export-shaped input:
    a dict whose optional [places] is a list of dicts whose optional
    [reviews] is a list of dicts with optional numeric [rating] and
    optional string [text]. *)
Theorem extract_cell_total (data : json) :
  data_ok data -> exists out, Extract.extract_cell data = Ok out.
Proof.
  intros (kv & -> & Hp). unfold Extract.extract_cell, dict_get.
  destruct Hp as [P | (ps & P & Hps)]; rewrite P; cbn [py_bind py_iter].
  - simpl. eauto.
  - exact (collect_places_total ps Hps).
Qed.

Lemma extract_cell_total_witness :
  exists out,
    Extract.extract_cell
      (JObj [(lit "places",
              JArr [JObj [(lit "name", JStr (lit "A"));
                          (lit "reviews",
                            JArr [JObj [(lit "rating", JInt 2)]])]])])
    = Ok out.
Proof.
  apply extract_cell_total.
  eexists. split; [reflexivity|]. right. eexists. split; [reflexivity|].
  constructor; [|constructor].
  eexists. split; [reflexivity|]. right. eexists. split; [reflexivity|].
  constructor; [|constructor].
  eexists. split; [reflexivity|]. split.
  - right. eexists. split; reflexivity.
  - left. reflexivity.
Defined.

(** Helper: when the score succeeds, [len(reviews)] is the length of the
    review list (a non-empty string or dict would have raised). *)
Lemma report_len_reviews (polarity : pystr -> f64) (kv : list (pystr * json))
  (v : json) (sc : pynum) (n : nat) :
  compute_investment_score polarity (JObj kv) = Ok sc ->
  assoc (lit "reviews") kv = Some v -> py_len v = Ok n ->
  n = List.length (match v with JArr l => l | _ => [] end).
Proof.
  intros C R L.
  destruct v as [| | | |s|l|kv']; simpl in L; try discriminate L; injection L as <-.
  - destruct s as [|c s']; [reflexivity|]. exfalso.
    unfold compute_investment_score, dict_get in C. rewrite R in C.
    simpl in C. discriminate C.
  - reflexivity.
  - destruct kv' as [|[k x] kv'']; [reflexivity|]. exfalso.
    unfold compute_investment_score, dict_get in C. rewrite R in C.
    simpl in C. discriminate C.
Qed.

Lemma report_place_spec (polarity : pystr -> f64) (p e : json) :
  report_place polarity p = Ok e ->
  exists sc, compute_investment_score polarity p = Ok sc /\ e = report_entry p sc.
Proof.
  intros H. destruct p as [| | | | | |kv]; try discriminate H.
  unfold report_place in H. rewrite !dict_get_obj in H. cbn [py_bind] in H.
  destruct (compute_investment_score polarity (JObj kv)) as [sc|] eqn:C.
  2:{ unfold dict_get in H. destruct (assoc (lit "reviews") kv); discriminate H. }
  exists sc. split; [reflexivity|]. unfold report_entry.
  unfold Extract.list_field, Extract.field at 2.
  unfold dict_get in H. destruct (assoc (lit "reviews") kv) as [v|] eqn:R.
  - cbn [py_bind] in H. destruct (py_len v) as [n|] eqn:L; [|discriminate H].
    cbn [py_bind] in H. injection H as <-.
    rewrite (report_len_reviews polarity kv v sc n C R L). reflexivity.
  - cbn [py_bind] in H. injection H as <-. reflexivity.
Qed.

Lemma report_places_strs (polarity : pystr -> f64) (items out : list json) :
  Forall (fun x => exists s, x = JStr s) items ->
  report_places polarity items = Ok out -> items = [].
Proof.
  intros HF H. destruct items as [|x items]; [reflexivity|].
  inversion HF as [|? ? [s ->] _]. simpl in H. discriminate H.
Qed.

Lemma report_places_spec (polarity : pystr -> f64) (ps out : list json) :
  report_places polarity ps = Ok out ->
  Forall2 (fun p e => exists sc, compute_investment_score polarity p = Ok sc
                                 /\ e = report_entry p sc) ps out.
Proof.
  revert out. induction ps as [|p ps IH]; intros out H.
  - injection H as <-. constructor.
  - simpl in H.
    destruct (report_place polarity p) as [e|] eqn:E1; [|discriminate H].
    simpl in H.
    destruct (report_places polarity ps) as [rest|] eqn:E2; [|discriminate H].
    simpl in H. injection H as <-.
    constructor; [exact (report_place_spec polarity p e E1) | exact (IH rest eq_refl)].
Qed.

(** Unlike the extraction, the investment-score cell keeps every place:
    when it completes, its output has exactly one entry per element of
    [places], in order, carrying the place's name and rating, its score
    (an int or a float) and the length of its raw review list. *)
Theorem report_cell_entries (polarity : pystr -> f64) (data : json)
  (out : list json) :
  report_cell polarity data = Ok out ->
  Forall2 (fun p e => exists sc, compute_investment_score polarity p = Ok sc
    /\ e = JObj [(lit "name", Extract.field p (lit "name"));
                 (lit "investment_score", json_of_num sc);
                 (lit "reviews_count",
                   JInt (Z.of_nat (List.length (Extract.list_field p (lit "reviews")))));
                 (lit "rating", Extract.field p (lit "rating"))])
    (Extract.list_field data (lit "places")) out.
Proof.
  intros H. destruct data as [| | | | | |kv]; try discriminate H.
  unfold report_cell, dict_get in H.
  change (Forall2 (fun p e => exists sc, compute_investment_score polarity p = Ok sc
                                         /\ e = report_entry p sc)
            (Extract.list_field (JObj kv) (lit "places")) out).
  unfold Extract.list_field, Extract.field.
  destruct (assoc (lit "places") kv) as [v|] eqn:P.
  - cbn [py_bind] in H.
    destruct (py_iter v) as [items|] eqn:I; [|discriminate H]. cbn [py_bind] in H.
    destruct (py_iter_cases v items I) as [(l & -> & ->) | (Hnot & HF)].
    + exact (report_places_spec polarity _ _ H).
    + pose proof (report_places_strs polarity _ _ HF H) as ->.
      injection H as <-.
      destruct v as [| | | | |l|]; try constructor. exfalso; exact (Hnot l eq_refl).
  - injection H as <-. constructor.
Qed.

Lemma report_cell_entries_witness :
  Forall2 (fun p e => exists sc, compute_investment_score (fun _ => Fin 0) p = Ok sc
    /\ e = JObj [(lit "name", Extract.field p (lit "name"));
                 (lit "investment_score", json_of_num sc);
                 (lit "reviews_count",
                   JInt (Z.of_nat (List.length (Extract.list_field p (lit "reviews")))));
                 (lit "rating", Extract.field p (lit "rating"))])
    [JObj [(lit "name", JStr (lit "A"));
           (lit "reviews", JArr [JObj [(lit "rating", JInt 4); (lit "text", JStr (lit "good"))]]);
           (lit "rating", JFloat (float_lit (45 # 10)))];
     JObj [(lit "name", JStr (lit "B"))]]
    [JObj [(lit "name", JStr (lit "A"));
           (lit "investment_score", JFloat (float_lit (205 # 100)));
           (lit "reviews_count", JInt 1);
           (lit "rating", JFloat (float_lit (45 # 10)))];
     JObj [(lit "name", JStr (lit "B")); (lit "investment_score", JInt 0);
           (lit "reviews_count", JInt 0); (lit "rating", JNull)]].
Proof.
  apply (report_cell_entries (fun _ => Fin 0)
    (JObj [(lit "places",
            JArr [JObj [(lit "name", JStr (lit "A"));
                        (lit "reviews", JArr [JObj [(lit "rating", JInt 4);
                                                    (lit "text", JStr (lit "good"))]]);
                        (lit "rating", JFloat (float_lit (45 # 10)))];
                  JObj [(lit "name", JStr (lit "B"))]])])).
  vm_compute. reflexivity.
Defined.

(** Helper: the review loop over a concatenation runs the first part, then
    the second from the first part's totals. *)
Lemma score_loop_app (polarity : pystr -> f64) (pre rest : list json) (tr ts : pynum) :
  score_loop polarity (pre ++ rest) tr ts
  = py_bind (score_loop polarity pre tr ts)
      (fun totals => score_loop polarity rest (fst totals) (snd totals)).
Proof.
  revert tr ts. induction pre as [|r pre IH]; intros tr ts; [reflexivity|].
  simpl. destruct (dict_get r (lit "rating") (JInt 0)); [|reflexivity]. simpl.
  destruct (dict_get r (lit "text") (JStr [])) as [t|]; [|reflexivity]. simpl.
  destruct (analyze_review_sentiment polarity t); [|reflexivity]. simpl.
  destruct (py_add_value tr a); [|reflexivity]. simpl.
  destruct (py_add ts a0); [|reflexivity]. simpl. apply IH.
Qed.

(** Once the reviews before it are processed without error, a review whose
    [text] is present but not a string (e.g. null), or whose [rating] is
    present but neither a number nor a boolean (e.g. null or the string
    "5") while its text is missing or a string, makes
    [compute_investment_score] raise [TypeError]. *)
Theorem compute_investment_score_bad_field (polarity : pystr -> f64)
  (kv : list (pystr * json)) (pre : list json) (kv' : list (pystr * json))
  (post : list json) (t : pynum * pynum) :
  score_loop polarity pre (PInt 0) (PInt 0) = Ok t ->
  assoc (lit "reviews") kv = Some (JArr (pre ++ JObj kv' :: post)) ->
  (exists x, assoc (lit "text") kv' = Some x /\ forall s, x <> JStr s)
  \/ ((exists r, assoc (lit "rating") kv' = Some r
                 /\ (forall z, r <> JInt z) /\ (forall f, r <> JFloat f)
                 /\ (forall b, r <> JBool b))
      /\ (assoc (lit "text") kv' = None
          \/ exists s, assoc (lit "text") kv' = Some (JStr s))) ->
  compute_investment_score polarity (JObj kv) = Raise TypeError.
Proof.
  intros Hpre R Hbad.
  unfold compute_investment_score. unfold dict_get at 1. rewrite R.
  assert (Htr : truthy (JArr (pre ++ JObj kv' :: post)) = true)
    by (destruct pre; reflexivity).
  cbn [py_bind]. rewrite Htr. cbn [negb py_bind py_iter].
  rewrite score_loop_app, Hpre. cbn [py_bind fst snd].
  simpl. unfold dict_get.
  destruct Hbad as [(x & Hx & Hns) | ((r & Hr & Hnz & Hnf & Hnb) & Htxt)].
  - rewrite Hx. destruct (assoc (lit "rating") kv'); simpl;
      destruct x; try reflexivity; exfalso; eapply Hns; reflexivity.
  - rewrite Hr. destruct Htxt as [Ht | (s & Ht)]; rewrite Ht; simpl;
      destruct r; try reflexivity; exfalso;
      first [eapply Hnz; reflexivity | eapply Hnf; reflexivity
            | eapply Hnb; reflexivity].
Qed.

Lemma compute_investment_score_bad_field_witness :
  compute_investment_score (fun _ => Fin 0)
    (JObj [(lit "reviews",
            JArr [JObj [(lit "rating", JInt 4); (lit "text", JStr (lit "ok"))];
                  JObj [(lit "rating", JStr (lit "5")); (lit "text", JStr (lit "fine"))]])])
  = Raise TypeError.
Proof.
  apply (compute_investment_score_bad_field (fun _ => Fin 0) _
           [JObj [(lit "rating", JInt 4); (lit "text", JStr (lit "ok"))]]
           [(lit "rating", JStr (lit "5")); (lit "text", JStr (lit "fine"))] []
           (PInt 4, PFloat (Fin 0))).
  - reflexivity.
  - reflexivity.
  - right. split.
    + eexists. split; [reflexivity|]. split; [|split]; intros ? H; discriminate H.
    + right. eexists. reflexivity.
Defined.

(** A place whose [reviews] is an explicit null scores 0, but its report
    entry raises [TypeError] at [len(reviews)], which aborts the whole
    investment-score cell. *)
Theorem report_place_null_reviews (polarity : pystr -> f64)
  (kv : list (pystr * json)) :
  assoc (lit "reviews") kv = Some JNull ->
  compute_investment_score polarity (JObj kv) = Ok (PInt 0)
  /\ report_place polarity (JObj kv) = Raise TypeError.
Proof.
  intros R. unfold report_place, compute_investment_score, dict_get.
  rewrite R. destruct (assoc (lit "name") kv); split; reflexivity.
Qed.

Lemma report_place_null_reviews_witness :
  compute_investment_score (fun _ => Fin 0)
    (JObj [(lit "name", JStr (lit "A")); (lit "reviews", JNull)]) = Ok (PInt 0)
  /\ report_place (fun _ => Fin 0)
       (JObj [(lit "name", JStr (lit "A")); (lit "reviews", JNull)])
     = Raise TypeError.
Proof. apply report_place_null_reviews. reflexivity. Defined.

(** Helpers: shapes of what the extraction writes, and a second pass over
    it. *)
Lemma extract_review_shape (r x : json) :
  Extract.extract_review r = Ok (Some x) -> kept_review_shape x.
Proof.
  intros H. destruct r as [| | | | | |kv]; try discriminate H.
  unfold Extract.extract_review in H. rewrite !dict_get_obj in H.
  cbn [py_bind] in H.
  destruct (truthy (Extract.field (JObj kv) (lit "author_name"))) eqn:A;
    cbn [andb negb] in H; [|discriminate H].
  destruct (is_none (Extract.field (JObj kv) (lit "rating"))) eqn:N;
    cbn [andb negb] in H; [discriminate H|].
  destruct (truthy (Extract.field (JObj kv) (lit "text"))); cbn [andb negb] in H;
    [|discriminate H].
  destruct (Extract.field (JObj kv) (lit "text")) as [| | | |s| |]; simpl in H;
    try discriminate H.
  injection H as <-.
  exists (Extract.field (JObj kv) (lit "author_name")),
         (Extract.field (JObj kv) (lit "rating")), s.
  split; [reflexivity|]. split; [exact A|].
  intros E. rewrite E in N. discriminate N.
Qed.

Lemma collect_reviews_shape (rs ks : list json) :
  Extract.collect_reviews rs = Ok ks -> Forall kept_review_shape ks.
Proof.
  revert ks. induction rs as [|r rs IH]; intros ks H.
  - injection H as <-. constructor.
  - simpl in H.
    destruct (Extract.extract_review r) as [o|] eqn:E1; [|discriminate H].
    simpl in H.
    destruct (Extract.collect_reviews rs) as [rest|] eqn:E2; [|discriminate H].
    simpl in H. injection H as <-.
    destruct o as [x|]; [constructor|]; eauto using extract_review_shape.
Qed.

Lemma extract_place_shape (p x : json) :
  Extract.extract_place p = Ok (Some x) -> kept_place_shape x.
Proof.
  intros H. destruct p as [| | | | | |kv]; try discriminate H.
  unfold Extract.extract_place in H. rewrite dict_get_obj in H. cbn [py_bind] in H.
  destruct (dict_get (JObj kv) (lit "reviews") (JArr [])) as [v|]; [|discriminate H].
  cbn [py_bind] in H.
  destruct (py_iter v) as [items|]; [|discriminate H]. cbn [py_bind] in H.
  destruct (Extract.collect_reviews items) as [ks|] eqn:C; [|discriminate H].
  cbn [py_bind] in H.
  destruct (truthy (Extract.field (JObj kv) (lit "name"))) eqn:Nm; simpl in H;
    [|discriminate H].
  destruct ks as [|k ks]; [discriminate H|]. injection H as <-.
  exists (Extract.field (JObj kv) (lit "name")), (k :: ks).
  split; [reflexivity|]. split; [exact Nm|]. split; [discriminate|].
  exact (collect_reviews_shape _ _ C).
Qed.

Lemma collect_places_shape (ps out : list json) :
  Extract.collect_places ps = Ok out -> Forall kept_place_shape out.
Proof.
  revert out. induction ps as [|p ps IH]; intros out H.
  - injection H as <-. constructor.
  - simpl in H.
    destruct (Extract.extract_place p) as [o|] eqn:E1; [|discriminate H].
    simpl in H.
    destruct (Extract.collect_places ps) as [rest|] eqn:E2; [|discriminate H].
    simpl in H. injection H as <-.
    destruct o as [x|]; [constructor|]; eauto using extract_place_shape.
Qed.

Lemma extract_review_rerun (x : json) :
  kept_review_shape x -> Extract.field x (lit "text") <> JStr [] ->
  Extract.extract_review x = Ok (Some x).
Proof.
  intros (a & rt & s & -> & Ha & Hrt) Hne.
  assert (Ht : Extract.field
                 (JObj [(lit "author_name", a); (lit "rating", rt);
                        (lit "text", JStr (strip s))]) (lit "text")
               = JStr (strip s)) by reflexivity.
  rewrite Ht in Hne.
  unfold Extract.extract_review.
  assert (G1 : dict_get (JObj [(lit "author_name", a); (lit "rating", rt);
                               (lit "text", JStr (strip s))]) (lit "author_name") JNull
               = Ok a) by reflexivity.
  assert (G2 : dict_get (JObj [(lit "author_name", a); (lit "rating", rt);
                               (lit "text", JStr (strip s))]) (lit "rating") JNull
               = Ok rt) by reflexivity.
  assert (G3 : dict_get (JObj [(lit "author_name", a); (lit "rating", rt);
                               (lit "text", JStr (strip s))]) (lit "text") JNull
               = Ok (JStr (strip s))) by reflexivity.
  rewrite G1, G2, G3. cbn [py_bind].
  assert (Hn : is_none rt = false) by (destruct rt; try reflexivity; contradiction).
  assert (Hs : truthy (JStr (strip s)) = true).
  { cbn [truthy]. destruct (strip s); [contradiction | reflexivity]. }
  rewrite Ha, Hn, Hs. cbn [andb negb py_strip py_bind].
  rewrite strip_idem. reflexivity.
Qed.

Lemma collect_reviews_rerun (ks : list json) :
  Forall kept_review_shape ks ->
  (forall r, In r ks -> Extract.field r (lit "text") <> JStr []) ->
  Extract.collect_reviews ks = Ok ks.
Proof.
  induction 1 as [|x ks Hx _ IH]; intros Hne; [reflexivity|].
  simpl. rewrite (extract_review_rerun x Hx (Hne x (or_introl eq_refl))).
  simpl. rewrite IH; [reflexivity|]. intros r Hr. apply Hne. right. exact Hr.
Qed.

Lemma extract_place_rerun (x : json) :
  kept_place_shape x ->
  (forall r, In r (Extract.list_field x (lit "reviews")) ->
             Extract.field r (lit "text") <> JStr []) ->
  Extract.extract_place x = Ok (Some x).
Proof.
  intros (name & ks & -> & Hn & Hks & Hsh) Hne.
  assert (L : Extract.list_field
                (JObj [(lit "name", name); (lit "reviews", JArr ks)]) (lit "reviews")
              = ks) by reflexivity.
  rewrite L in Hne.
  unfold Extract.extract_place.
  assert (G1 : dict_get (JObj [(lit "name", name); (lit "reviews", JArr ks)])
                 (lit "name") JNull = Ok name) by reflexivity.
  assert (G2 : dict_get (JObj [(lit "name", name); (lit "reviews", JArr ks)])
                 (lit "reviews") (JArr []) = Ok (JArr ks)) by reflexivity.
  rewrite G1, G2. cbn [py_bind py_iter].
  rewrite (collect_reviews_rerun ks Hsh Hne). cbn [py_bind].
  rewrite Hn. destruct ks; [contradiction|reflexivity].
Qed.

(** Running the extraction again on its own output reproduces that output,
    provided no kept review text stripped down to the empty string. *)
Theorem extract_cell_rerun (data : json) (out : list json) :
  Extract.extract_cell data = Ok out ->
  (forall e, In e out -> forall r, In r (Extract.list_field e (lit "reviews")) ->
             Extract.field r (lit "text") <> JStr []) ->
  Extract.extract_cell (JObj [(lit "places", JArr out)]) = Ok out.
Proof.
  intros H Hne.
  assert (Hsh : Forall kept_place_shape out).
  { destruct data as [| | | | | |kv]; try discriminate H.
    unfold Extract.extract_cell in H.
    destruct (dict_get (JObj kv) (lit "places") (JArr [])) as [v|]; [|discriminate H].
    cbn [py_bind] in H. destruct (py_iter v) as [items|]; [|discriminate H].
    cbn [py_bind] in H. exact (collect_places_shape _ _ H). }
  unfold Extract.extract_cell.
  assert (G : dict_get (JObj [(lit "places", JArr out)]) (lit "places") (JArr [])
              = Ok (JArr out)) by reflexivity.
  rewrite G. cbn [py_bind py_iter].
  clear H G. induction Hsh as [|x out Hx _ IH]; [reflexivity|].
  simpl. rewrite (extract_place_rerun x Hx (Hne x (or_introl eq_refl))).
  pose proof (IH (fun e He => Hne e (or_intror He))) as IH'.
  simpl. rewrite IH'. reflexivity.
Qed.

Lemma extract_cell_rerun_witness :
  Extract.extract_cell
    (JObj [(lit "places",
            JArr [JObj [(lit "name", JStr (lit "A"));
                        (lit "reviews",
                          JArr [JObj [(lit "author_name", JStr (lit "u"));
                                      (lit "rating", JInt 5);
                                      (lit "text", JStr (lit "hi"))]])]])])
  = Ok [JObj [(lit "name", JStr (lit "A"));
              (lit "reviews",
                JArr [JObj [(lit "author_name", JStr (lit "u"));
                            (lit "rating", JInt 5);
                            (lit "text", JStr (lit "hi"))]])]].
Proof.
  apply (extract_cell_rerun
    (JObj [(lit "places",
            JArr [JObj [(lit "name", JStr (lit "A"));
                        (lit "reviews",
                          JArr [JObj [(lit "author_name", JStr (lit "u"));
                                      (lit "rating", JInt 5);
                                      (lit "text", JStr ([12288]%Z ++ lit "hi" ++ [160]%Z))]])]])])).
  - vm_compute. reflexivity.
  - intros e He r Hr. simpl in He. destruct He as [<-|[]].
    simpl in Hr. destruct Hr as [<-|[]]. discriminate.
Defined.

(** Helpers: the score raises nothing but [OverflowError] on a place of
    the export's shape. *)
Lemma py_sum_from_overflow (acc : pynum) (l : list pynum) :
  raises_only_overflow (py_sum_from acc l).
Proof.
  revert acc. induction l as [|x l IH]; intros acc; [apply ok_overflow|].
  cbn [py_sum_from]. apply bind_overflow; [apply py_add_overflow | intros; apply IH].
Qed.

Lemma investment_formula_overflow (ratings sentiments : list pynum) (n : Z) :
  (0 < n)%Z -> raises_only_overflow (investment_formula ratings sentiments n).
Proof.
  intros Hn. unfold investment_formula.
  apply bind_overflow; [apply py_sum_from_overflow | intros tr].
  apply bind_overflow; [apply py_sum_from_overflow | intros ts].
  apply bind_overflow; [apply py_truediv_overflow; exact Hn | intros ar].
  apply bind_overflow; [apply py_truediv_overflow; exact Hn | intros as_].
  apply bind_overflow; [apply py_mul_overflow | intros a].
  apply bind_overflow; [apply py_mul_overflow | intros b].
  apply bind_overflow; [apply py_add_overflow | intros ab].
  apply bind_overflow; [apply py_mul_overflow | intros c].
  apply bind_overflow; [apply py_add_overflow | intros s].
  apply py_round2_overflow.
Qed.

Lemma compute_investment_score_overflow (polarity : pystr -> f64) (p : json) :
  place_ok p -> raises_only_overflow (compute_investment_score polarity p).
Proof.
  intros (kv & -> & Hrev).
  destruct Hrev as [R | (rs & R & Hrs)].
  - unfold compute_investment_score, dict_get. rewrite R. apply ok_overflow.
  - destruct rs as [|r rs].
    + unfold compute_investment_score, dict_get. rewrite R. apply ok_overflow.
    + rewrite (compute_investment_score_formula polarity kv (r :: rs) R
                 ltac:(discriminate) Hrs).
      apply investment_formula_overflow. cbn [List.length]. lia.
Qed.

Lemma report_place_overflow (polarity : pystr -> f64) (p : json) :
  place_ok p -> raises_only_overflow (report_place polarity p).
Proof.
  intros Hp e H. pose proof (compute_investment_score_overflow polarity p Hp) as Ov.
  destruct Hp as (kv & -> & Hrev).
  unfold report_place in H. rewrite !dict_get_obj in H. cbn [py_bind] in H.
  assert (Hv : exists l, dict_get (JObj kv) (lit "reviews") (JArr []) = Ok (JArr l)).
  { unfold dict_get. destruct Hrev as [R | (rs & R & _)]; rewrite R; eauto. }
  destruct Hv as [l Hv]. rewrite Hv in H. cbn [py_bind py_len] in H.
  destruct (compute_investment_score polarity (JObj kv)) as [sc|e'] eqn:C;
    cbn [py_bind] in H; [discriminate H|].
  injection H as <-. apply Ov. reflexivity.
Qed.

Lemma report_places_overflow (polarity : pystr -> f64) (ps : list json) :
  Forall place_ok ps -> raises_only_overflow (report_places polarity ps).
Proof.
  induction 1 as [|p ps Hp _ IH]; [apply ok_overflow|].
  cbn [report_places]. apply bind_overflow; [apply report_place_overflow; exact Hp|].
  intros x. apply bind_overflow; [exact IH | intros; apply ok_overflow].
Qed.

(** The investment-score cell raises nothing but [OverflowError] on an
    export-shaped input: it completes, or a conversion of a huge int to
    float overflows. *)
Theorem report_cell_total (polarity : pystr -> f64) (data : json) :
  data_ok data ->
  (exists out, report_cell polarity data = Ok out)
  \/ report_cell polarity data = Raise OverflowError.
Proof.
  intros (kv & -> & Hp). unfold report_cell, dict_get.
  destruct Hp as [P | (ps & P & Hps)]; rewrite P; cbn [py_bind py_iter].
  - left. eexists. reflexivity.
  - destruct (report_places polarity ps) as [out|e] eqn:E; [left; eauto|].
    right. rewrite (report_places_overflow polarity ps Hps e E). reflexivity.
Qed.

Lemma report_cell_total_witness :
  (exists out,
    report_cell (fun _ => Fin 0)
      (JObj [(lit "places",
              JArr [JObj [(lit "name", JStr (lit "A"));
                          (lit "reviews",
                            JArr [JObj [(lit "rating", JInt 2)]])]])])
    = Ok out)
  \/ report_cell (fun _ => Fin 0)
       (JObj [(lit "places",
               JArr [JObj [(lit "name", JStr (lit "A"));
                           (lit "reviews",
                             JArr [JObj [(lit "rating", JInt 2)]])]])])
     = Raise OverflowError.
Proof.
  apply report_cell_total.
  eexists. split; [reflexivity|]. right. eexists. split; [reflexivity|].
  constructor; [|constructor].
  eexists. split; [reflexivity|]. right. eexists. split; [reflexivity|].
  constructor; [|constructor].
  eexists. split; [reflexivity|]. split.
  - right. eexists. split; reflexivity.
  - left. reflexivity.
Defined.


(** [round(0.125, 2)] is the double nearest to 0.12, which lies slightly
    more than half a cent away from 0.125. *)
Lemma round2_eighth :
  py_round2 (PFloat (float_lit (1 # 8))) = Ok (PFloat (float_lit (12 # 100)))
  /\ (1 # 200) < Qabs (fq (float_lit (12 # 100)) - fq (float_lit (1 # 8))).
Proof.
  split; [vm_compute; reflexivity|].
  apply Qnot_le_lt. intros H. apply Qle_bool_iff in H. vm_compute in H. discriminate H.
Qed.

(** [round(x, 2)] on a finite float [x] returns a finite float within half
    a cent of [x], up to the rounding of that decimal to a double. *)
Theorem round2_close (q : Q) :
  Qabs q <= 2 ^ 1022 ->
  exists g v, py_round2 (PFloat (Fin q)) = Ok (PFloat g) /\ fval g = Some v
    /\ Qabs (v - q) <= (1 # 200) + (Qabs q + (1 # 200)) * u53 + eta.
Proof.
  intros Hq.
  assert (E : 2 ^ 1022 == big * (1 # 2)) by (unfold big; vm_compute; reflexivity).
  assert (Hq' : Qabs q <= big * (1 # 2)) by (rewrite <- E; exact Hq).
  destruct (py_round2_close (Fin q) q eq_refl Hq') as (g & w & Hg & Hw & L & U).
  exists g, w. split; [exact Hg|]. split; [exact Hw|].
  set (y := inject_Z (round_half_even (q * 100)) / 100) in *.
  assert (Hy : q - (1 # 200) <= y <= q + (1 # 200)).
  { destruct (round_half_even_close (q * 100)) as [A B]. unfold y. split.
    - apply Qle_shift_div_l; [reflexivity | lra].
    - apply Qle_shift_div_r; [reflexivity | lra]. }
  pose proof (Qle_Qabs q) as Q1. pose proof (Qle_Qabs (- q)) as Q2.
  rewrite Qabs_opp in Q2.
  assert (Ay : Qabs y <= Qabs q + (1 # 200)) by (apply Qabs_Qle_condition; lra).
  assert (Qabs y * u53 <= (Qabs q + (1 # 200)) * u53)
    by (apply Qmult_le_compat_r; [exact Ay | unfold u53; lra]).
  apply Qabs_Qle_condition. lra.
Qed.

Lemma round2_close_witness :
  exists g v, py_round2 (PFloat (Fin (1 # 8))) = Ok (PFloat g) /\ fval g = Some v
    /\ Qabs (v - (1 # 8)) <= (1 # 200) + (Qabs (1 # 8) + (1 # 200)) * u53 + eta.
Proof.
  apply round2_close. apply Qle_bool_iff. vm_compute. reflexivity.
Defined.

(** ** Error analysis of the score. *)

Lemma op_err (M : Q) : 0 <= M <= 6000000000 -> M * u53 + eta <= dX.
Proof. intros HM. pose proof eta_small. unfold dX, u53 in *. lra. Qed.

Lemma dX_small : 0 < dX /\ dX * 1100 < 1 # 2.
Proof. unfold dX, u53. split; lra. Qed.

Lemma big_large : 6000000000 <= big * (1 # 2).
Proof. apply Qle_bool_iff. vm_compute. reflexivity. Qed.

Lemma small_of_bound (x : pynum) (c : Q) :
  num_val x = Some c -> -6000000000 <= c <= 6000000000 -> small_int x.
Proof.
  intros Hx Hc. destruct x as [z|f]; simpl; [|exact I].
  simpl in Hx. injection Hx as <-. destruct Hc as [H1 H2].
  unfold Qle in H1, H2. simpl in H1, H2.
  assert (P : (2 ^ 53 = 9007199254740992)%Z) by reflexivity. lia.
Qed.

Ltac six_e9_le_big := pose proof big_large; pose proof big_pos; lra.

Lemma py_add_d (x y : pynum) (a b : Q) :
  num_val x = Some a -> num_val y = Some b ->
  -6000000000 <= a <= 6000000000 -> -6000000000 <= b <= 6000000000 ->
  -6000000000 <= a + b <= 6000000000 ->
  exists r c, py_add x y = Ok r /\ num_val r = Some c
    /\ a + b - dX <= c <= a + b + dX.
Proof.
  intros Hx Hy Ha Hb Hab.
  destruct (py_add_close x y a b 6000000000 Hx Hy (small_of_bound x a Hx Ha)
              (small_of_bound y b Hy Hb) Hab ltac:(six_e9_le_big))
    as (r & c & E & V & C).
  pose proof (op_err 6000000000 ltac:(lra)).
  exists r, c. split; [exact E|]. split; [exact V|]. lra.
Qed.

Lemma py_mul_d (x y : pynum) (a b : Q) :
  num_val x = Some a -> num_val y = Some b ->
  -6000000000 <= a <= 6000000000 -> -6000000000 <= b <= 6000000000 ->
  -6000000000 <= a * b <= 6000000000 ->
  exists r c, py_mul x y = Ok r /\ num_val r = Some c
    /\ a * b - dX <= c <= a * b + dX.
Proof.
  intros Hx Hy Ha Hb Hab.
  destruct (py_mul_close x y a b 6000000000 Hx Hy (small_of_bound x a Hx Ha)
              (small_of_bound y b Hy Hb) Hab ltac:(six_e9_le_big))
    as (r & c & E & V & C).
  pose proof (op_err 6000000000 ltac:(lra)).
  exists r, c. split; [exact E|]. split; [exact V|]. lra.
Qed.

Lemma py_truediv_d (x : pynum) (n : Z) (a : Q) :
  num_val x = Some a -> (0 < n <= 1000000000)%Z ->
  -6000000000 <= a <= 6000000000 ->
  -6000000000 <= a / inject_Z n <= 6000000000 ->
  exists r c, py_truediv x (PInt n) = Ok r /\ num_val r = Some c
    /\ a / inject_Z n - dX <= c <= a / inject_Z n + dX.
Proof.
  intros Hx Hn Ha Han.
  assert (P : (2 ^ 53 = 9007199254740992)%Z) by reflexivity.
  destruct (py_truediv_close x n a 6000000000 Hx (small_of_bound x a Hx Ha)
              ltac:(lia) Han ltac:(six_e9_le_big))
    as (r & c & E & V & C).
  pose proof (op_err 6000000000 ltac:(lra)).
  exists r, c. split; [exact E|]. split; [exact V|]. lra.
Qed.

Lemma inject_Z_nat_nonneg (k : nat) : 0 <= inject_Z (Z.of_nat k).
Proof. unfold Qle. simpl. lia. Qed.

Lemma inject_Z_nat_succ (k : nat) :
  inject_Z (Z.of_nat (S k)) == inject_Z (Z.of_nat k) + 1.
Proof. rewrite Nat2Z.inj_succ, <- Z.add_1_r, inject_Z_plus. reflexivity. Qed.

(** A left-to-right sum of [L] values in [[a, b]], started from a total of
    [J] such values, stays in [[(J+L) a, (J+L) b]] up to [dX] per
    addition. *)
Lemma py_sum_from_close (a b : Q) (l : list pynum) :
  forall (acc : pynum) (c J : Q),
  -5 <= a -> a <= 0 -> 0 <= b -> b <= 5 ->
  Forall (fun x => exists q, num_val x = Some q /\ a <= q <= b) l ->
  num_val acc = Some c -> 0 <= J ->
  J * a - J * dX <= c <= J * b + J * dX ->
  J + inject_Z (Z.of_nat (List.length l)) <= 1000000000 ->
  exists r c', py_sum_from acc l = Ok r /\ num_val r = Some c'
    /\ (J + inject_Z (Z.of_nat (List.length l))) * a
         - (J + inject_Z (Z.of_nat (List.length l))) * dX <= c'
    /\ c' <= (J + inject_Z (Z.of_nat (List.length l))) * b
             + (J + inject_Z (Z.of_nat (List.length l))) * dX.
Proof.
  pose proof dX_small as [D0 D1].
  induction l as [|x l IH]; intros acc c J Ha0 Ha1 Hb0 Hb1 Hl Hc HJ Bc HL.
  - exists acc, c. split; [reflexivity|]. split; [exact Hc|].
    change (inject_Z (Z.of_nat (List.length []))) with 0. lra.
  - inversion Hl as [|? ? (q & Hq & Bq) Hl' ]; subst.
    cbn [List.length] in HL |- *.
    pose proof (inject_Z_nat_succ (List.length l)) as Ls.
    pose proof (inject_Z_nat_nonneg (List.length l)) as L0.
    set (L := inject_Z (Z.of_nat (List.length l))) in *.
    assert (J*b <= 5*J) by nra. assert (-5*J <= J*a) by nra.
    assert (J*dX <= J) by nra. assert (0 <= J*dX) by nra.
    destruct (py_add_d acc x c q Hc Hq ltac:(lra) ltac:(lra) ltac:(lra))
      as (r1 & c1 & E1 & V1 & C1).
    destruct (IH r1 c1 (J + 1) Ha0 Ha1 Hb0 Hb1 Hl' V1 ltac:(lra) ltac:(lra) ltac:(lra))
      as (r & c' & E & V & B1 & B2).
    exists r, c'. cbn [py_sum_from]. rewrite E1. cbn [py_bind].
    split; [exact E|]. split; [exact V|].
    rewrite Ls. split; lra.
Qed.

Lemma div_bounds (t N lo hi : Q) :
  0 < N -> lo * N <= t <= hi * N -> lo <= t / N <= hi.
Proof.
  intros HN [H1 H2]. split.
  - apply Qle_shift_div_l; assumption.
  - apply Qle_shift_div_r; assumption.
Qed.

Lemma py_add_float (x : pynum) (g : f64) (r : pynum) :
  py_add x (PFloat g) = Ok r -> exists f, r = PFloat f.
Proof.
  intros H. destruct x; unfold py_add in H.
  - destruct (to_float (PInt z)); cbn [py_bind] in H; [|discriminate H].
    injection H as <-. eauto.
  - cbn [to_float py_bind] in H. injection H as <-. eauto.
Qed.

Lemma py_mul_float (x : pynum) (g : f64) (r : pynum) :
  py_mul x (PFloat g) = Ok r -> exists f, r = PFloat f.
Proof.
  intros H. destruct x; unfold py_mul in H.
  - destruct (to_float (PInt z)); cbn [py_bind] in H; [|discriminate H].
    injection H as <-. eauto.
  - cbn [to_float py_bind] in H. injection H as <-. eauto.
Qed.

Lemma py_add_float_l (x : pynum) (g : f64) (r : pynum) :
  py_add (PFloat g) x = Ok r -> exists f, r = PFloat f.
Proof.
  intros H. destruct x; unfold py_add in H; cbn [to_float py_bind] in H.
  - destruct (int_to_float z); cbn [py_bind] in H; [|discriminate H].
    injection H as <-. eauto.
  - injection H as <-. eauto.
Qed.

(** With at most [10^9] reviews, ratings in [0, 5] and sentiment
    polarities in [-1, 1], the score of [n >= 1] reviews is a float in
    [n * 0.05 - 2 - 0.005, n * 0.05 + 4.5 + 0.005]. *)
Theorem compute_investment_score_range (polarity : pystr -> f64)
  (kv : list (pystr * json)) (rs : list json) :
  assoc (lit "reviews") kv = Some (JArr rs) -> rs <> [] -> Forall review_ok rs ->
  (Z.of_nat (List.length rs) <= 1000000000)%Z ->
  Forall (fun r => exists q, num_val (rating_or_0 r) = Some q /\ 0 <= q <= 5) rs ->
  (forall s, exists p, fval (polarity s) = Some p /\ -1 <= p <= 1) ->
  exists sc v, compute_investment_score polarity (JObj kv) = Ok (PFloat sc)
    /\ fval sc = Some v
    /\ inject_Z (Z.of_nat (List.length rs)) * (5 # 100) - 2 - (1 # 200) <= v
    /\ v <= inject_Z (Z.of_nat (List.length rs)) * (5 # 100) + (9 # 2) + (1 # 200).
Proof.
  intros R Hne Hok Hlen Hrat Hpol.
  pose proof dX_small as [D0 D1].
  rewrite (compute_investment_score_formula polarity kv rs R Hne Hok).
  unfold investment_formula.
  assert (Hn1 : (1 <= Z.of_nat (List.length rs))%Z)
    by (destruct rs; [contradiction | simpl; lia]).
  set (n := Z.of_nat (List.length rs)) in *.
  assert (HN : 1 <= inject_Z n <= 1000000000)
    by (unfold Qle; simpl; lia).
  assert (EK1 : inject_Z (5 * n - 200) == 5 * inject_Z n - 200)
    by (unfold Qeq; simpl; lia).
  assert (EK2 : inject_Z (5 * n + 450) == 5 * inject_Z n + 450)
    by (unfold Qeq; simpl; lia).
  set (N := inject_Z n) in *.
  (* the two sums *)
  destruct (py_sum_from_close 0 5 (map rating_or_0 rs) (PInt 0) 0 0
              ltac:(lra) ltac:(lra) ltac:(lra) ltac:(lra)
              ltac:(apply Forall_map; exact Hrat) eq_refl ltac:(lra) ltac:(lra)
              ltac:(rewrite length_map; fold n; fold N; lra))
    as (tr & t & Etr & Vt & Bt1 & Bt2).
  rewrite length_map in Bt1, Bt2. fold n N in Bt1, Bt2.
  destruct (py_sum_from_close (-1) 1 (map (fun r => PFloat (polarity (text_or_empty r))) rs)
              (PInt 0) 0 0
              ltac:(lra) ltac:(lra) ltac:(lra) ltac:(lra)
              ltac:(apply Forall_map, Forall_forall; intros; apply Hpol)
              eq_refl ltac:(lra) ltac:(lra)
              ltac:(rewrite length_map; fold n; fold N; lra))
    as (ts & s & Ets & Vs & Bs1 & Bs2).
  rewrite length_map in Bs1, Bs2. fold n N in Bs1, Bs2.
  rewrite Etr, Ets. cbn [py_bind].
  assert (N*dX <= N) by nra. assert (0 <= N*dX) by nra.
  (* the averages *)
  assert (At : - dX <= t / N <= 5 + dX) by (apply div_bounds; [lra | split; nra]).
  assert (As : -1 - dX <= s / N <= 1 + dX) by (apply div_bounds; [lra | split; nra]).
  destruct (py_truediv_d tr n t Vt ltac:(lia) ltac:(lra) ltac:(fold N; lra))
    as (ar & A & Ear & VA & BA).
  destruct (py_truediv_d ts n s Vs ltac:(lia) ltac:(lra) ltac:(fold N; lra))
    as (as_ & S & Eas & VS & BS).
  fold N in BA, BS.
  rewrite Ear, Eas. cbn [py_bind].
  (* the weighted terms *)
  destruct (py_mul_d ar (PFloat (float_lit (1 # 2))) A (1 # 2) VA eq_refl
              ltac:(lra) ltac:(lra) ltac:(lra)) as (a & Ca & Ea & Va & Ba).
  destruct (py_mul_d as_ (PInt 2) S 2 VS eq_refl
              ltac:(lra) ltac:(lra) ltac:(lra)) as (b & Cb & Eb & Vb & Bb).
  rewrite Ea, Eb. cbn [py_bind].
  destruct (py_add_d a b Ca Cb Va Vb ltac:(lra) ltac:(lra) ltac:(lra))
    as (ab & Cab & Eab & Vab & Bab).
  rewrite Eab. cbn [py_bind].
  set (f05 := fq (float_lit (5 # 100))).
  assert (F05 : (1 # 20) <= f05 <= (1 # 20) + (1 # 100000000000000000)).
  { split; apply Qle_bool_iff; vm_compute; reflexivity. }
  assert (NF1 : N * (1 # 20) <= N * f05)
    by (rewrite !(Qmult_comm N); apply Qmult_le_compat_r; lra).
  assert (NF2 : N * f05 <= N * ((1 # 20) + (1 # 100000000000000000)))
    by (rewrite !(Qmult_comm N); apply Qmult_le_compat_r; lra).
  destruct (py_mul_d (PInt n) (PFloat (float_lit (5 # 100))) N f05 eq_refl eq_refl
              ltac:(lra) ltac:(lra) ltac:(lra)) as (c & Cc & Ec & Vc & Bc).
  rewrite Ec. cbn [py_bind].
  destruct (py_mul_float _ _ _ Ec) as [fc ->].
  destruct (py_add_d ab (PFloat fc) Cab Cc Vab Vc ltac:(lra) ltac:(unfold dX, u53 in *; lra)
              ltac:(unfold dX, u53 in *; lra))
    as (sr & v & Es & Vv & Bv).
  rewrite Es. cbn [py_bind].
  destruct (py_add_float _ _ _ Es) as [f ->].
  (* the rounding to two decimals *)
  destruct (py_round2_close f v Vv ltac:(apply Qabs_Qle_condition; pose proof big_large;
                                          unfold dX, u53 in *; lra))
    as (g & w & Eg & Vw & Bw).
  exists g, w. split; [exact Eg|]. split; [exact Vw|].
  set (K := round_half_even (v * 100)) in *.
  assert (K1 : (5 * n - 200 <= K)%Z).
  { apply round_half_even_ge. rewrite EK1. unfold dX, u53 in *. lra. }
  assert (K2 : (K <= 5 * n + 450)%Z).
  { apply round_half_even_le. rewrite EK2. unfold dX, u53 in *. lra. }
  rewrite Zle_Qle in K1, K2. rewrite EK1 in K1. rewrite EK2 in K2.
  set (Y := inject_Z K / 100) in *.
  assert (EY : Y * 100 == inject_Z K) by (unfold Y; field).
  assert (AY : Qabs Y <= 6000000000) by (apply Qabs_Qle_condition; lra).
  pose proof (op_err (Qabs Y) (conj (Qabs_nonneg Y) AY)).
  unfold dX, u53 in *. split; lra.
Qed.

Lemma compute_investment_score_range_witness :
  exists sc v, compute_investment_score (fun _ => Fin 0)
    (JObj [(lit "reviews",
            JArr [JObj [(lit "rating", JInt 4); (lit "text", JStr (lit "good"))]])])
    = Ok (PFloat sc)
  /\ fval sc = Some v
  /\ inject_Z 1 * (5 # 100) - 2 - (1 # 200) <= v
  /\ v <= inject_Z 1 * (5 # 100) + (9 # 2) + (1 # 200).
Proof.
  apply (compute_investment_score_range (fun _ => Fin 0) _
           [JObj [(lit "rating", JInt 4); (lit "text", JStr (lit "good"))]]).
  - reflexivity.
  - discriminate.
  - constructor; [|constructor].
    eexists. split; [reflexivity|]. split; right; eexists; [split|]; reflexivity.
  - simpl. lia.
  - constructor; [|constructor]. eexists. split; [reflexivity|]. split; discriminate.
  - intros s. exists 0. split; [reflexivity | split; discriminate].
Defined.
